(** * terraform-tools: doc-checker and schema-checker

    A shallow embedding of the two command line tools of the repository
    (cmd/doc-checker and cmd/schema-checker) together with the properties
    of their catalog extraction, documentation classification, rule engine
    and cross-reference checker.

    Go strings and byte slices are byte sequences and are modelled by
    [string]; Go maps with string keys by [gmap string _]; slices by lists.
    A run-time panic of the Go program (failed type assertion, index or
    slice out of range, nil dereference) is the outcome [Panicked]. *)

From Stdlib Require Import Ascii String NArith ZArith Lia.
From stdpp Require Import base option list gmap strings.

Local Open Scope string_scope.
Local Open Scope list_scope.

(** ** Outcomes of code that may panic *)

(** [Panicked] is a run-time panic, [Fatal] is [log.Fatal]: both end the
    whole run. *)
Inductive outcome (A : Type) : Type :=
| Done (a : A)
| Panicked
| Fatal (msg : string).
Arguments Done {A} a.
Arguments Panicked {A}.
Arguments Fatal {A} msg.

Global Instance outcome_ret : MRet outcome := fun _ a => Done a.
Global Instance outcome_bind : MBind outcome := fun _ _ f m =>
  match m with
  | Done a => f a
  | Panicked => Panicked
  | Fatal msg => Fatal msg
  end.

(** A [for ... range] loop whose body threads the state [B] and may panic. *)
Definition forRange {A B : Type} (body : B -> A -> outcome B)
  : list A -> B -> outcome B :=
  fix go (l : list A) (b : B) : outcome B :=
    match l with
    | [] => Done b
    | x :: r => b' ← body b x; go r b'
    end.

(** ** The functions of Go's [strings] and [bytes] packages that are used *)

Module GoStrings.

(** [s[n:]] for [n <= len(s)]. *)
Fixpoint drop (n : nat) (s : string) : string :=
  match n, s with
  | 0, _ => s
  | S _, EmptyString => EmptyString
  | S k, String _ r => drop k r
  end.

(** [strings.HasPrefix(s, prefix)] *)
Definition HasPrefix (s prefix : string) : bool := String.prefix prefix s.

(** [strings.Contains(s, substr)], also [bytes.Contains] *)
Fixpoint Contains (s substr : string) : bool :=
  HasPrefix s substr ||
  match s with
  | EmptyString => false
  | String _ r => Contains r substr
  end.

(** [strings.HasSuffix(s, suffix)] *)
Fixpoint HasSuffix (s suffix : string) : bool :=
  String.eqb s suffix ||
  match s with
  | EmptyString => false
  | String _ r => HasSuffix r suffix
  end.

(** [strings.LastIndex(s, substr)]: the index of the last occurrence,
    -1 when there is none. *)
Fixpoint LastIndex (s substr : string) : Z :=
  match s with
  | EmptyString => if HasPrefix s substr then 0%Z else (-1)%Z
  | String _ r =>
      let i := LastIndex r substr in
      if (0 <=? i)%Z then (i + 1)%Z
      else if HasPrefix s substr then 0%Z else (-1)%Z
  end.

(** The text before and after the first occurrence of [sep]. *)
Fixpoint Cut (s sep : string) : option (string * string) :=
  if HasPrefix s sep then Some (EmptyString, drop (String.length sep) s)
  else match s with
       | EmptyString => None
       | String c r =>
           match Cut r sep with
           | Some (a, b) => Some (String c a, b)
           | None => None
           end
       end.

Fixpoint SplitN (fuel : nat) (s sep : string) : list string :=
  match fuel with
  | 0 => [s]
  | S k =>
      match Cut s sep with
      | Some (a, b) => a :: SplitN k b sep
      | None => [s]
      end
  end.

(** [strings.Split(s, sep)] for a non-empty separator: every cut consumes
    at least one byte, so [len(s)] cuts are enough. *)
Definition Split (s sep : string) : list string :=
  SplitN (String.length s) s sep.

(** [strings.Replace(s, old, new, -1)] for a one-byte [old]. *)
Fixpoint ReplaceByte (s : string) (old : ascii) (new : string) : string :=
  match s with
  | EmptyString => EmptyString
  | String c r =>
      if Ascii.eqb c old then new +:+ ReplaceByte r old new
      else String c (ReplaceByte r old new)
  end.

(** [strings.Join(elems, sep)] *)
Definition Join (elems : list string) (sep : string) : string :=
  String.concat sep elems.

(** The pieces of [s] between newline bytes; the last piece is what
    follows the last newline. *)
Fixpoint pieces (s : string) : list string :=
  match s with
  | EmptyString => [EmptyString]
  | String c r =>
      if Ascii.eqb c "010" then EmptyString :: pieces r
      else match pieces r with
           | h :: t => String c h :: t
           | [] => [String c EmptyString]
           end
  end.

(** bufio's [dropCR]: one trailing carriage return is dropped. *)
Fixpoint dropCR (s : string) : string :=
  match s with
  | EmptyString => EmptyString
  | String c EmptyString =>
      if Ascii.eqb c "013" then EmptyString else s
  | String c r => String c (dropCR r)
  end.

Fixpoint dropLastEmpty (l : list string) : list string :=
  match l with
  | [] => []
  | [x] => if String.eqb x EmptyString then [] else [x]
  | x :: r => x :: dropLastEmpty r
  end.

(** [bufio.MaxScanTokenSize]: a line has to fit, with its newline, into
    a buffer of this size. *)
Definition MaxScanTokenSize : N := 65536.

Fixpoint fitting (l : list string) : list string :=
  match l with
  | [] => []
  | x :: r =>
      if (N.of_nat (String.length x) <? MaxScanTokenSize)%N
      then x :: fitting r else []
  end.

(** The tokens that [bufio.Scanner] yields with its default split
    function ScanLines: the lines without their end-of-line marker, no
    empty token after a final newline, and nothing from the first line
    on that does not fit the buffer. *)
Definition scanLines (content : string) : list string :=
  map dropCR (fitting (dropLastEmpty (pieces content))).

End GoStrings.
Import GoStrings.

(** ** The syntax tree of go/ast, as far as the tools look at it *)

Module Ast.

#[warnings="-register-all"] Inductive node : Type :=
| BasicLit (Value : string)
| Ident (Name : string) (Obj : option object)
| KeyValueExpr (Key Value : node)
| CompositeLit (Type_ : option node) (Elts : list node)
| UnaryExpr (X : node)
| StarExpr (X : node)
| SelectorExpr (X : node) (Sel : string)
| CallExpr (Fun : node) (Args : list node)
| ReturnStmt (Results : list node)
| FuncDecl (Recv : option (list field)) (Name : string)
           (Params : list field) (Results : option (list field))
           (Body : option (list node))
| File (Name : string) (Decls : list node)
| OtherNode (children : list node)
with field : Type :=
| Field (Names : list string) (Type_ : node)
with object : Type :=
| Object (Decl : decl)
with decl : Type :=
| ValueSpec (Names : list string) (Values : list node)
| OtherDecl.

(** Nodes that no visitor of the tools tells apart: ast.FuncType,
    ast.FieldList, ast.Field, ast.BlockStmt. [ast.Walk] still calls the
    visitor on them.  Comment groups, which the visitors pass over in the
    same way, are not part of the tree. *)
Definition structural : node := OtherNode [].

Section Walk.
Context {V S : Type}.
(** [Visit v n s]: the visitor [v] is called on the node [n] in the
    state [s]; it answers with the visitor for the children of [n]
    ([None] is Go's nil: the children are not walked).  Every visitor
    of the tools answers nil on a nil node and does nothing else, so
    the closing call [v.Visit(nil)] of ast.Walk is left out. *)
Variable Visit : V -> node -> S -> outcome (option V * S).

Definition visitLeaf (w : V) (n : node) (s : S) : outcome S :=
  r ← Visit w n s; Done (snd r).

Definition walkList (walk : node -> S -> outcome S)
  : list node -> S -> outcome S :=
  fix go (l : list node) (s : S) : outcome S :=
    match l with
    | [] => Done s
    | n :: r => s' ← walk n s; go r s'
    end.

Definition walkIdents (w : V) : list string -> S -> outcome S :=
  fix go (l : list string) (s : S) : outcome S :=
    match l with
    | [] => Done s
    | x :: r => s' ← visitLeaf w (Ident x None) s; go r s'
    end.

(** Under a structural node: the visitor is asked first. *)
Definition under (w : V) (s : S) (k : V -> S -> outcome S) : outcome S :=
  r ← Visit w structural s;
  match fst r with
  | None => Done (snd r)
  | Some w' => k w' (snd r)
  end.

(** [ast.Walk(v, n)] *)
Fixpoint Walk (v : V) (n : node) (s : S) {struct n} : outcome S :=
  r ← Visit v n s;
  match fst r with
  | None => Done (snd r)
  | Some w =>
      let s := snd r in
      let walkFields : list field -> V -> S -> outcome S :=
        fix go (l : list field) (w : V) (s : S) : outcome S :=
          match l with
          | [] => Done s
          | Field names ty :: r =>
              s' ← under w s (fun w' s =>
                     s ← walkIdents w' names s; Walk w' ty s);
              go r w s'
          end in
      let walkFieldList (l : list field) (w : V) (s : S) : outcome S :=
        under w s (walkFields l) in
      match n with
      | BasicLit _ | Ident _ _ => Done s
      | KeyValueExpr k x => s ← Walk w k s; Walk w x s
      | CompositeLit ty elts =>
          s ← match ty with
              | Some t => Walk w t s
              | None => Done s
              end;
          walkList (Walk w) elts s
      | UnaryExpr x | StarExpr x => Walk w x s
      | SelectorExpr x sel =>
          s ← Walk w x s; visitLeaf w (Ident sel None) s
      | CallExpr f args => s ← Walk w f s; walkList (Walk w) args s
      | ReturnStmt results => walkList (Walk w) results s
      | FuncDecl recv name params results body =>
          s ← match recv with
              | Some l => walkFieldList l w s
              | None => Done s
              end;
          s ← visitLeaf w (Ident name None) s;
          s ← under w s (fun w' s =>
                s ← walkFieldList params w' s;
                match results with
                | Some l => walkFieldList l w' s
                | None => Done s
                end);
          match body with
          | Some stmts => under w s (fun w' => walkList (Walk w') stmts)
          | None => Done s
          end
      | File name decls =>
          s ← visitLeaf w (Ident name None) s;
          walkList (Walk w) decls s
      | OtherNode children => walkList (Walk w) children s
      end
  end.
End Walk.

(** The result of [parser.ParseFile]. *)
Inductive parsed : Type :=
| ParseError (err : string)
| Parsed (file : node).

Definition Decls (f : node) : list node :=
  match f with
  | File _ decls => decls
  | _ => []
  end.

End Ast.
Import Ast.

(** The slice expression [s[1 : len(s)-1]]; it panics when [len(s) < 2]. *)
Definition sliceInner (s : string) : outcome string :=
  if Nat.ltb (String.length s) 2 then Panicked
  else Done (String.substring 1 (String.length s - 2) s).

(** [decodeString]: the text of a string literal without its quotes. *)
Definition decodeString (val : string) : outcome string := sliceInner val.

(** ** cmd/doc-checker *)

Module DocChecker.

Record resourceDefinition : Type := { name : string; fnc : string }.

Record provider : Type :=
  { datasources : list resourceDefinition;
    resources : list resourceDefinition }.

(** documentation contains all documentation for datasources and
    resources, indexed by name. *)
Record documentation : Type :=
  { Datasources : gmap string string;
    Resources : gmap string string }.

(** [docTypeDatasource] is 0, the zero value of [docType]. *)
Inductive docType : Type := docTypeDatasource | docTypeResource.

Global Instance docType_eq_dec : EqDecision docType.
Proof. solve_decision. Defined.

(** What the tool writes: [log.Printf] lines, and [Debugf] lines that are
    written only under the -debug flag. *)
Inductive message : Type :=
| MissingInDocs (expectedMarkup schemaName : string)
| FailedToParse (path : string)
| IgnoringArity (fn : string)
| IgnoringReturnType (fn : string)
| NoMatchingEntry (fn : string)
| StructureNotParsed (fn : string)
| IgnoringElement
| IgnoringDoc (path : string)
| IgnoringProviderKey (key : string).

Section WithDebug.
(** The global [*debug] flag. *)
Variable debug : bool.

Definition Debugf (m : message) (log : list message) : list message :=
  if debug then log ++ [m] else log.

(** *** parseProviderDefinition *)

(** One entry of the ResourcesMap or DataSourcesMap literal. *)
Definition mapEntry (elttt : node) : outcome resourceDefinition :=
  match elttt with
  | KeyValueExpr (BasicLit v) (CallExpr (Ident f _) _) =>
      n ← decodeString v; Done {| name := n; fnc := f |}
  | _ => Panicked
  end.

Definition mapEntries (elttValue : node) (acc : list resourceDefinition)
  : outcome (list resourceDefinition) :=
  match elttValue with
  | CompositeLit _ elts =>
      forRange (fun acc elttt => d ← mapEntry elttt; Done (acc ++ [d]))
               elts acc
  | _ => Panicked
  end.

Definition providerField (st : provider * list message) (elt : node)
  : outcome (provider * list message) :=
  let (p, log) := st in
  match elt with
  | KeyValueExpr (Ident key _) value =>
      if String.eqb key "ResourcesMap" then
        rs ← mapEntries value (resources p);
        Done ({| datasources := datasources p; resources := rs |}, log)
      else if String.eqb key "DataSourcesMap" then
        ds ← mapEntries value (datasources p);
        Done ({| datasources := ds; resources := resources p |}, log)
      else Done (p, Debugf (IgnoringProviderKey key) log)
  | _ => Panicked
  end.

Definition providerStmt (st : provider * list message) (stmt : node)
  : outcome (provider * list message) :=
  match stmt with
  | ReturnStmt results =>
      match results with
      | UnaryExpr (CompositeLit _ elts) :: _ =>
          forRange providerField elts st
      | _ => Panicked
      end
  | _ => Done st
  end.

Definition providerDecl (st : provider * list message) (decl : node)
  : outcome (provider * list message) :=
  match decl with
  | FuncDecl _ fname _ _ body =>
      if negb (String.eqb fname "Provider") then Done st
      else match body with
           | Some stmts => forRange providerStmt stmts st
           | None => Panicked
           end
  | _ => Done st
  end.

(** [parseProviderDefinition]: the provider and the error it returns,
    with the debug lines written on the way. *)
Definition parseProviderDefinition (src : parsed)
  : outcome (provider * option string * list message) :=
  match src with
  | ParseError err =>
      Done ({| datasources := []; resources := [] |}, Some err, [])
  | Parsed f =>
      st ← forRange providerDecl (Decls f)
             ({| datasources := []; resources := [] |}, []);
      Done (fst st, None, snd st)
  end.

(** *** classifyDoc *)

(** The stripping of a kind infix, as written twice in the source:
    [if HasPrefix(line, kw) { line = line[n:] }] and then
    [if Contains(line, kw) { idx := LastIndex(line, kw); line = line[idx+n:] }],
    with [n] the literal 11 for "datasource-" and 9 for "resource-". *)
Definition stripInfix (kw : string) (n : nat) (line : string) : string :=
  let line := if HasPrefix line kw then drop n line else line in
  if Contains line kw
  then drop (Z.to_nat (LastIndex line kw + Z.of_nat n)) line
  else line.

(** The heuristics applied to the value of the front-matter marker:
    [Some (t, n)] when the loop sets [t] and [n] and breaks, [None]
    when it goes on to the next line. *)
Definition classifyValue (providerName path line : string)
  : option (docType * string) :=
  let line := if HasPrefix line "docs-" then drop 5 line else line in
  let line :=
    if HasPrefix line (providerName +:+ "-")
    then drop (String.length providerName + 1) line else line in
  if Contains line "datasource" || Contains line "data-source"
     || Contains path "/d/" || Contains path "data_source"
  then Some (docTypeDatasource, stripInfix "datasource-" 11 line)
  else if Contains line "resource" || Contains path "/r/"
  then Some (docTypeResource, stripInfix "resource-" 9 line)
  else None.

(** The body of the scanner loop for one line: what it sets [t] and [n]
    to.  The line [Debugf] writes for [parts] under -debug is not part
    of the model; it has no bearing on the values returned. *)
Definition classifyLine (providerName path line : string)
  : outcome (option (docType * string)) :=
  if negb (Contains line "sidebar_current") then Done None
  else match Split line ": " with
       | _ :: part1 :: _ =>
           value ← sliceInner part1;
           Done (classifyValue providerName path value)
       | _ => Panicked
       end.

Fixpoint scanLoop (providerName path : string) (lines : list string)
  : outcome (docType * string) :=
  match lines with
  | [] => Done (docTypeDatasource, EmptyString)
  | line :: rest =>
      r ← classifyLine providerName path line;
      match r with
      | Some tn => Done tn
      | None => scanLoop providerName path rest
      end
  end.

(** The canonical name built from the suffix [n]. *)
Definition canonicalName (providerName n : string) : string :=
  providerName +:+ "_" +:+
  ReplaceByte (ReplaceByte n " " "_") "-" "_".

(** [classifyDoc] returns the name, the kind and the error. *)
Definition classifyDoc (providerName path content : string)
  : outcome (string * docType * option string) :=
  '(t, n) ← scanLoop providerName path (scanLines content);
  if String.eqb n EmptyString
  then Done (n, t, Some "could not find sidebar_current")
  else Done (canonicalName providerName n, t, None).

(** *** loadDocumentation *)

(** One call of the [filepath.Walk] callback: the path, and the bytes
    read from it ([None] when [os.Open] or [ioutil.ReadAll] fails). *)
Record walked : Type := { wpath : string; wcontent : option string }.

Definition candidate (extensions : list string) (path : string) : bool :=
  existsb (HasSuffix path) extensions.

Definition emptyDocumentation : documentation :=
  {| Datasources := ∅; Resources := ∅ |}.

(** The callback; [inl err] stops the walk with that error. *)
Definition loadOne (providerName : string) (extensions : list string)
    (w : walked) (st : documentation * list message)
  : outcome (string + documentation * list message) :=
  let (d, log) := st in
  if negb (candidate extensions (wpath w)) then Done (inr st)
  else match wcontent w with
       | None => Done (inl "read error")
       | Some docset =>
           r ← classifyDoc providerName (wpath w) docset;
           match r with
           | (_, _, Some _) =>
               Done (inr (d, Debugf (IgnoringDoc (wpath w)) log))
           | (docName, docTypeDatasource, None) =>
               Done (inr ({| Datasources := <[docName := docset]> (Datasources d);
                             Resources := Resources d |}, log))
           | (docName, docTypeResource, None) =>
               Done (inr ({| Datasources := Datasources d;
                             Resources := <[docName := docset]> (Resources d) |}, log))
           end
       end.

Fixpoint loadWalk (providerName : string) (extensions : list string)
    (entries : list walked) (st : documentation * list message)
  : outcome (documentation * option string * list message) :=
  match entries with
  | [] => Done (fst st, None, snd st)
  | w :: rest =>
      r ← loadOne providerName extensions w st;
      match r with
      | inl err => Done (fst st, Some err, snd st)
      | inr st' => loadWalk providerName extensions rest st'
      end
  end.

(** [loadDocumentation], over the entries that [filepath.Walk] visits
    under the root, in the order of the walk. *)
Definition loadDocumentation (providerName : string)
    (entries : list walked) (extensions : list string)
  : outcome (documentation * option string * list message) :=
  loadWalk providerName extensions entries (emptyDocumentation, []).

(** *** verifyAttributes *)

(** [docs.Datasources[name]]: a missing key reads as the nil slice. *)
Definition docsOf (m : gmap string string) (key : string) : string :=
  default EmptyString (m !! key).

(** The two lookup loops: found, schemaName, docset. *)
Definition findEntry (fname : string) (prov : provider)
    (docs : documentation) : bool * string * string :=
  let st :=
    fold_left (fun st v =>
                 if String.eqb (fnc v) fname
                 then (true, name v, docsOf (Datasources docs) (name v))
                 else st)
              (datasources prov) (false, EmptyString, EmptyString) in
  fold_left (fun st v =>
               if String.eqb (fnc v) fname
               then (true, name v, docsOf (Resources docs) (name v))
               else st)
            (resources prov) st.

(** The literal that names an attribute: the key itself, or the first
    value of the declaration an identifier key resolves to. *)
Definition attributeLiteral (key : node) : outcome string :=
  match key with
  | BasicLit v => Done v
  | Ident _ (Some (Object (ValueSpec _ (BasicLit v :: _)))) => Done v
  | _ => Panicked
  end.

Definition verifyAttribute (schemaName docset : string)
    (log : list message) (elt : node) : outcome (list message) :=
  match elt with
  | KeyValueExpr key _ =>
      lit ← attributeLiteral key;
      n ← decodeString lit;
      let expectedMarkup := "`" +:+ n +:+ "`" in
      if negb (Contains docset expectedMarkup)
      then Done (log ++ [MissingInDocs expectedMarkup schemaName])
      else Done log
  | _ => Done (Debugf IgnoringElement log)
  end.

Definition verifyField (schemaName docset : string)
    (log : list message) (elt : node) : outcome (list message) :=
  match elt with
  | KeyValueExpr key value =>
      match key with
      | Ident k _ =>
          if negb (String.eqb k "Schema") then Done log
          else match value with
               | CompositeLit _ elts =>
                   forRange (verifyAttribute schemaName docset) elts log
               | _ => Done log
               end
      | _ => Panicked
      end
  | _ => Done log
  end.

Definition verifyBody (fname schemaName docset : string)
    (body : option (list node)) (log : list message)
  : outcome (list message) :=
  match body with
  | Some (ReturnStmt results :: _) =>
      match results with
      | UnaryExpr (CompositeLit _ elts) :: _ =>
          forRange (verifyField schemaName docset) elts log
      | _ => Panicked
      end
  | Some (_ :: _) => Done (Debugf (StructureNotParsed fname) log)
  | _ => Panicked
  end.

Definition verifyDecl (prov : provider) (docs : documentation)
    (log : list message) (decl : node) : outcome (list message) :=
  match decl with
  | FuncDecl _ fname _ (Some results) body =>
      match results with
      | [Field _ ty] =>
          match ty with
          | StarExpr (SelectorExpr x sel) =>
              skip ← (if negb (String.eqb sel "Resource") then Done true
                      else match x with
                           | Ident pkg _ => Done (negb (String.eqb pkg "schema"))
                           | _ => Panicked
                           end);
              if skip : bool then Done log
              else
                match findEntry fname prov docs with
                | (false, _, _) => Done (Debugf (NoMatchingEntry fname) log)
                | (true, schemaName, docset) =>
                    verifyBody fname schemaName docset body log
                end
          | StarExpr _ => Done log
          | _ => Done (Debugf (IgnoringReturnType fname) log)
          end
      | _ => Done (Debugf (IgnoringArity fname) log)
      end
  | _ => Done log
  end.

(** [verifyAttributes] for one source file: the lines it writes. *)
Definition verifyAttributes (path : string) (src : parsed)
    (prov : provider) (docs : documentation) : outcome (list message) :=
  match src with
  | ParseError _ => Done [FailedToParse path]
  | Parsed f => forRange (verifyDecl prov docs) (Decls f) []
  end.

End WithDebug.
End DocChecker.

(** ** cmd/schema-checker *)

Module SchemaChecker.

(** A line written by [attributeChecker]: the node whose position is
    printed, and the text of the error. *)
Definition diagnostic : Type := node * string.

(** The visitors of the tool; [AttributeChecker] is the closure that
    holds the enclosing schema literal. *)
Inductive walker : Type :=
| SchemaFinder
| SchemaResourceChecker
| SchemaChecker
| AttributeChecker (schema : node).

(** The name of the identifier that is the key of the key/value pair
    [elt]; both type assertions of the source are unchecked. *)
Definition propertyName (elt : node) : outcome string :=
  match elt with
  | KeyValueExpr (Ident n _) _ => Done n
  | _ => Panicked
  end.

Definition checkDescription (attributeName : string) (def : list node)
    (schema : node) : outcome (option string) :=
  hasDescription ←
    forRange (fun has elt =>
                n ← propertyName elt;
                Done (has || String.eqb n "Description"))
             def false;
  if hasDescription : bool then Done None
  else Done (Some (attributeName +:+ ": Missing Description attribute")).

Definition checkAttributeName (attributeName : string) (def : list node)
    (schema : node) : outcome (option string) :=
  if String.eqb attributeName "id"
  then Done (Some (attributeName +:+ ": attribute name is reserved"))
  else Done None.

Definition attributeCollector (_ : unit) (n : node) (res : list string)
  : outcome (option unit * list string) :=
  match n with
  | KeyValueExpr (BasicLit v) _ =>
      s ← sliceInner v; Done (None, res ++ [s])
  | KeyValueExpr _ _ => Done (None, res)
  | _ => Done (Some tt, res)
  end.

Definition collectAttributeNames (schema : node) : outcome (list string) :=
  Walk attributeCollector tt schema [].

(** The targets listed by the ConflictsWith properties of [def]. *)
Definition conflictTarget (conflicts : list string) (conflict : node)
  : outcome (list string) :=
  match conflict with
  | BasicLit value => s ← sliceInner value; Done (conflicts ++ [s])
  | _ => Panicked
  end.

Definition conflictTargets (conflicts : list string) (elt : node)
  : outcome (list string) :=
  n ← propertyName elt;
  if negb (String.eqb n "ConflictsWith") then Done conflicts
  else match elt with
       | KeyValueExpr _ (CompositeLit _ elts) =>
           forRange conflictTarget elts conflicts
       | _ => Panicked
       end.

Section WithQuote.
(** The verb %q of package fmt ([strconv.Quote]). *)
Variable quote : string -> string.

Definition danglingError (conflict : string) : string :=
  "conflict target " +:+ quote conflict +:+ " does not exist".

Definition checkConflictsWith (attributeName : string) (def : list node)
    (schema : node) : outcome (option string) :=
  conflicts ← forRange conflictTargets def [];
  if Nat.eqb (length conflicts) 0 then Done None
  else
    attributeNames ← collectAttributeNames schema;
    let errors :=
      fold_left (fun errors conflict =>
                   if existsb (fun attribute => String.eqb attribute conflict)
                              attributeNames
                   then errors
                   else errors ++ [danglingError conflict])
                conflicts [] in
    if Nat.eqb (length errors) 0 then Done None
    else Done (Some (attributeName +:+ ": " +:+ Join errors ", ")).

Definition checks
  : list (string -> list node -> node -> outcome (option string)) :=
  [checkDescription; checkAttributeName; checkConflictsWith].

Definition attributeChecker (schema : node) (n : node)
    (out : list diagnostic) : outcome (option walker * list diagnostic) :=
  match n with
  | KeyValueExpr (BasicLit lit) (CompositeLit _ elts) =>
      out' ← forRange (fun out check =>
                         err ← check lit elts schema;
                         match err with
                         | Some e => Done (out ++ [(n, e)])
                         | None => Done out
                         end)
                      checks out;
      Done (Some (AttributeChecker schema), out')
  | KeyValueExpr (BasicLit _) _ => Done (Some (AttributeChecker schema), out)
  | KeyValueExpr _ _ => Done (None, out)
  | _ => Done (Some (AttributeChecker schema), out)
  end.

Definition schemaChecker (n : node) (out : list diagnostic)
  : outcome (option walker * list diagnostic) :=
  match n with
  | CompositeLit (Some _) _ => Done (Some (AttributeChecker n), out)
  | _ => Done (Some SchemaChecker, out)
  end.

Definition schemaResourceChecker (n : node) (out : list diagnostic)
  : outcome (option walker * list diagnostic) :=
  match n with
  | KeyValueExpr (Ident k _) _ =>
      if String.eqb k "Schema" then Done (Some SchemaChecker, out)
      else Done (Some SchemaResourceChecker, out)
  | _ => Done (Some SchemaResourceChecker, out)
  end.

Definition schemaFinder (n : node) (out : list diagnostic)
  : outcome (option walker * list diagnostic) :=
  match n with
  | FuncDecl _ _ _ results _ =>
      match results with
      | Some [Field _ (StarExpr (SelectorExpr x sel))] =>
          if negb (String.eqb sel "Resource") then Done (None, out)
          else match x with
               | Ident pkg _ =>
                   if negb (String.eqb pkg "schema") then Done (None, out)
                   else Done (Some SchemaResourceChecker, out)
               | _ => Panicked
               end
      | _ => Done (None, out)
      end
  | _ => Done (Some SchemaFinder, out)
  end.

(** The method [Visit] of [schemaWalker]. *)
Definition Visit (w : walker) : node -> list diagnostic ->
                                outcome (option walker * list diagnostic) :=
  match w with
  | SchemaFinder => schemaFinder
  | SchemaResourceChecker => schemaResourceChecker
  | SchemaChecker => schemaChecker
  | AttributeChecker schema => attributeChecker schema
  end.

(** [checkSchema] for one source file: the lines it prints. *)
Definition checkSchema (src : parsed) : outcome (list diagnostic) :=
  match src with
  | ParseError err => Fatal err
  | Parsed f => Walk Visit SchemaFinder f []
  end.

End WithQuote.
End SchemaChecker.

(** ** Shapes of the input that the properties speak about *)

Import DocChecker.

(** A map entry ["declaredName": constructorName(...)] of the registration
    literal, and the catalog pair it stands for. *)
Inductive EntryOf : node -> resourceDefinition -> Prop :=
| EntryOf_intro (v n f : string) (o : option object) (args : list node) :
    decodeString v = Done n ->
    EntryOf (KeyValueExpr (BasicLit v) (CallExpr (Ident f o) args))
            {| name := n; fnc := f |}.

(** The fields of the registration literal: [rs] are the entries of its
    resource map(s), [ds] those of its datasource map(s), in the order of
    the source; fields of any other name may stand between them. *)
Inductive RegistrationFields : list node -> list node -> list node -> Prop :=
| RF_nil : RegistrationFields [] [] []
| RF_resources (o : option object) (ty : option node) (es fs rs ds : list node) :
    RegistrationFields fs rs ds ->
    RegistrationFields
      (KeyValueExpr (Ident "ResourcesMap" o) (CompositeLit ty es) :: fs)
      (es ++ rs) ds
| RF_datasources (o : option object) (ty : option node) (es fs rs ds : list node) :
    RegistrationFields fs rs ds ->
    RegistrationFields
      (KeyValueExpr (Ident "DataSourcesMap" o) (CompositeLit ty es) :: fs)
      rs (es ++ ds)
| RF_other (k : string) (o : option object) (v : node) (fs rs ds : list node) :
    k <> "ResourcesMap" -> k <> "DataSourcesMap" ->
    RegistrationFields fs rs ds ->
    RegistrationFields (KeyValueExpr (Ident k o) v :: fs) rs ds.

Definition isProviderDecl (d : node) : bool :=
  match d with
  | FuncDecl _ n _ _ _ => String.eqb n "Provider"
  | _ => false
  end.

Definition isReturnStmt (s : node) : bool :=
  match s with
  | ReturnStmt _ => true
  | _ => false
  end.

(** The file declares one function Provider, whose one return statement
    returns the address of a literal with the fields [fields]. *)
Inductive Registration (f : node) (fields : list node) : Prop :=
| Registration_intro (pkg : string) (before after : list node)
    (recv : option (list field)) (params : list field)
    (results : option (list field)) (stmts1 stmts2 more : list node)
    (ty : option node) :
    f = File pkg
          (before ++
           FuncDecl recv "Provider" params results
             (Some (stmts1 ++
                    ReturnStmt (UnaryExpr (CompositeLit ty fields) :: more)
                    :: stmts2))
           :: after) ->
    Forall (fun d => isProviderDecl d = false) before ->
    Forall (fun d => isProviderDecl d = false) after ->
    Forall (fun s => isReturnStmt s = false) stmts1 ->
    Forall (fun s => isReturnStmt s = false) stmts2 ->
    Registration f fields.

(** The reading of "a later entry of the same declared name shadows the
    earlier one": the earlier pair is not in the catalog. *)
Definition later_entry_shadows (declared catalog : list resourceDefinition)
  : Prop :=
  forall l1 e1 l2 e2 l3,
    declared = l1 ++ e1 :: l2 ++ e2 :: l3 ->
    name e1 = name e2 -> fnc e1 <> fnc e2 ->
    ~ In e1 catalog.

(** The source text of a string literal: [s] between double quotes. *)
Definition dquote : ascii := "034"%char.

Definition quoted (s : string) : string :=
  String dquote (s +:+ String dquote EmptyString).

Definition registrationOf (rs ds : list node) : node :=
  File "acme"
    [FuncDecl None "Provider" [] (Some [Field [] (Ident "provider" None)])
       (Some [ReturnStmt
                [UnaryExpr
                   (CompositeLit (Some (Ident "Provider" None))
                      [KeyValueExpr (Ident "Schema" None) (CompositeLit None []);
                       KeyValueExpr (Ident "ResourcesMap" None)
                                    (CompositeLit None rs);
                       KeyValueExpr (Ident "DataSourcesMap" None)
                                    (CompositeLit None ds)])]])].

Definition entryNode (declared constructor : string) : node :=
  KeyValueExpr (BasicLit (quoted declared))
               (CallExpr (Ident constructor None) []).

(** A registration whose resource map names acme_widget twice. *)
Definition dupDeclared : list resourceDefinition :=
  [{| name := "acme_widget"; fnc := "resourceWidgetV1" |};
   {| name := "acme_widget"; fnc := "resourceWidgetV2" |}].

Definition dupFile : node :=
  registrationOf [entryNode "acme_widget" "resourceWidgetV1";
                  entryNode "acme_widget" "resourceWidgetV2"]
                 [entryNode "acme_region" "dataSourceRegion"].

(** A registration with one resource and one datasource. *)
Definition acmeFile : node :=
  registrationOf [entryNode "acme_widget" "resourceWidget"]
                 [entryNode "acme_region" "dataSourceRegion"].

(** *** Attribute records *)

Import SchemaChecker.

(** A property of an attribute record: a key/value pair whose key is an
    identifier, as in [Description: "..."]. *)
Definition isProperty (elt : node) : bool :=
  match elt with
  | KeyValueExpr (Ident _ _) _ => true
  | _ => false
  end.

Definition isKeyValue (n : node) : bool :=
  match n with
  | KeyValueExpr _ _ => true
  | _ => false
  end.

(** The property list holds a Description property, whatever its value. *)
Definition HasDescription (def : list node) : Prop :=
  exists o v, In (KeyValueExpr (Ident "Description" o) v) def.

Definition property (k : string) (v : node) : node :=
  KeyValueExpr (Ident k None) v.

Definition strLit (s : string) : node := BasicLit (quoted s).

Definition selector (pkg sel : string) : node :=
  SelectorExpr (Ident pkg None) sel.

(** The type [map[string]*schema.Schema] of a schema literal. *)
Definition schemaMapType : node :=
  OtherNode [Ident "string" None; StarExpr (selector "schema" "Schema")].

Definition schemaLiteral (attrs : list node) : node :=
  CompositeLit (Some schemaMapType) attrs.

(** ["name": { properties }] *)
Definition attribute (attr : string) (properties : list node) : node :=
  KeyValueExpr (strLit attr) (CompositeLit None properties).

(** [func fname() *schema.Resource { return &schema.Resource{Schema: ...} }] *)
Definition constructorDecl (fname : string) (attrs : list node) : node :=
  FuncDecl None fname []
    (Some [Field [] (StarExpr (selector "schema" "Resource"))])
    (Some [ReturnStmt
             [UnaryExpr
                (CompositeLit (Some (selector "schema" "Resource"))
                   [property "Schema" (schemaLiteral attrs)])]]).

(** A resource with an attribute named id, which carries a description. *)
Definition idAttribute : node :=
  attribute "id" [property "Type" (selector "schema" "TypeString");
                  property "Description" (strLit "the identifier")].

Definition idFile : node :=
  File "acme" [constructorDecl "resourceWidget" [idAttribute]].

Definition isDescription (elt : node) : bool :=
  match elt with
  | KeyValueExpr (Ident n _) _ => String.eqb n "Description"
  | _ => false
  end.

(** An attribute with an empty description. *)
Definition emptyDescription : list node :=
  [property "Type" (selector "schema" "TypeString");
   property "Description" (strLit "")].

(** A schema with the attributes name (a literal key) and zone (keyed by
    the constant attrZone), and an attribute record that lists conflict
    targets. *)
Definition constantKey (c value : string) : node :=
  Ident c (Some (Object (ValueSpec [c] [strLit value]))).

Definition zoneSchemaAttrs : list node :=
  [attribute "name" [];
   KeyValueExpr (constantKey "attrZone" "zone") (CompositeLit None [])].

Definition conflictsWith (targets : list string) : list node :=
  [property "Type" (selector "schema" "TypeString");
   property "ConflictsWith" (CompositeLit None (map strLit targets))].

(** *** Inputs of the cross-reference checker *)

Definition described (text : string) : list node :=
  [property "Type" (selector "schema" "TypeString");
   property "Description" (strLit text)].

(** The datasource acme_region, built by dataSourceRegion, with the
    attributes name and zone. *)
Definition regionProvider : provider :=
  {| datasources := [{| name := "acme_region"; fnc := "dataSourceRegion" |}];
     resources := [] |}.

Definition regionFile : node :=
  File "acme"
    [constructorDecl "dataSourceRegion"
       [attribute "name" (described "name of the region");
        attribute "zone" (described "zone of the region")]].

(** The same datasource, with the attribute zone keyed by a constant that
    another file of the package declares: the parser leaves the object of
    the identifier unresolved. *)
Definition foreignKeyFile : node :=
  File "acme"
    [constructorDecl "dataSourceRegion"
       [attribute "name" (described "name of the region");
        KeyValueExpr (Ident "attrZone" None)
                     (CompositeLit None (described "zone of the region"))]].

(** [const attrName, attrZone = "name", "zone"], and a schema keyed by the
    second constant. *)
Definition pairedKeyFile : node :=
  File "acme"
    [constructorDecl "dataSourceRegion"
       [KeyValueExpr
          (Ident "attrZone"
             (Some (Object (ValueSpec ["attrName"; "attrZone"]
                                      [strLit "name"; strLit "zone"]))))
          (CompositeLit None (described "zone of the region"))]].

(** The documentation of acme_region, which has markup for both of its
    attributes. *)
Definition regionDocs : documentation :=
  {| Datasources :=
       {[ "acme_region" := "* `name` - the name. * `zone` - the zone." ]};
     Resources := ∅ |}.

(** *** The documentation index *)

Definition indexOf (t : docType) (d : documentation) : gmap string string :=
  match t with
  | docTypeDatasource => Datasources d
  | docTypeResource => Resources d
  end.

Definition overwrite (t : docType) (docName docset : string)
    (d : documentation) : documentation :=
  match t with
  | docTypeDatasource =>
      {| Datasources := <[docName := docset]> (Datasources d);
         Resources := Resources d |}
  | docTypeResource =>
      {| Datasources := Datasources d;
         Resources := <[docName := docset]> (Resources d) |}
  end.

(** The walk entry [w] is a readable documentation fragment with the
    bytes [c] that the Classifier files under [(t, docName)]. *)
Definition ClassifiedAs (providerName : string) (extensions : list string)
    (w : walked) (c : string) (t : docType) (docName : string) : Prop :=
  wcontent w = Some c /\
  candidate extensions (wpath w) = true /\
  classifyDoc providerName (wpath w) c = Done (docName, t, None).

(** Two fragments of one name and kind, as a walk may meet them. *)
Definition newline : ascii := "010"%char.

(** A fragment: the front-matter marker line, then the text [body]. *)
Definition fragment (marker body : string) : string :=
  "sidebar_current: " +:+ quoted marker +:+ String newline body.

Definition widgetV1 : walked :=
  {| wpath := "website/docs/r/widget.html.markdown";
     wcontent := Some (fragment "docs-acme-resource-widget" "first") |}.

Definition widgetV2 : walked :=
  {| wpath := "website/docs/r/widget.md";
     wcontent := Some (fragment "docs-acme-resource-widget" "second") |}.

Definition docExtensions : list string :=
  ["md"; "markdown"; "html.md"; "html.markdown"].

(** *** The Classifier *)

(** The byte [c] occurs in [s]. *)
Definition has (c : ascii) (s : string) : bool :=
  Contains s (String c EmptyString).

(** The source path carries the directory hint of the kind. *)
Definition pathHint (t : docType) (path : string) : bool :=
  match t with
  | docTypeDatasource => Contains path "/d/" || Contains path "data_source"
  | docTypeResource => Contains path "/r/"
  end.

(** The suffix with spaces and hyphens made underscores. *)
Definition normalized (n : string) : string :=
  ReplaceByte (ReplaceByte n " " "_") "-" "_".

(** The reading of "convention-consistent": the heuristics, applied to
    the canonical name that the Classifier derived for the fragment, give
    back the kind of the fragment and the suffix of the name. *)
Definition convention_consistent (providerName path content : string)
  : Prop :=
  forall N t,
    classifyDoc providerName path content = Done (N, t, None) ->
    exists suffix,
      N = providerName +:+ "_" +:+ suffix /\
      classifyValue providerName path N = Some (t, suffix).

(** A fragment of the resource acme_widget outside the r/ directory. *)
Definition widgetFragment : string :=
  fragment "docs-acme-resource-widget" "# acme_widget".

(** A schema whose attribute outer holds a nested schema with the
    attribute inner. *)
Definition nestedSchema : node :=
  schemaLiteral
    [attribute "outer"
       [property "Type" (selector "schema" "TypeList");
        property "Elem"
          (UnaryExpr
             (CompositeLit (Some (selector "schema" "Resource"))
                [property "Schema" (schemaLiteral [attribute "inner" []])]))]].

(** *** Further shapes and inputs *)

(** The infix that the Classifier strips for a kind. *)
Definition kindInfix (t : docType) : string :=
  match t with
  | docTypeDatasource => "datasource-"
  | docTypeResource => "resource-"
  end.

(** The front-matter line that carries the marker value. *)
Definition markerLine (value : string) : string :=
  "sidebar_current: " +:+ quoted value.

(** The line, with its newline, fits the buffer of the scanner. *)
Definition fits (line : string) : bool :=
  (N.of_nat (String.length line) <? MaxScanTokenSize)%N.

(** The part of a conventional marker line before the kind infix. *)
Definition beforeInfix (providerName : string) : string :=
  "sidebar_current: " +:+ String dquote ("docs-" +:+ providerName +:+ "-").

(** The markup that the cross-reference checker looks for. *)
Definition markup (n : string) : string := "`" +:+ n +:+ "`".

Definition undocumented (docset : string) (names : list string)
  : list string :=
  List.filter (fun n => negb (Contains docset (markup n))) names.

(** An attribute with a literal key: its name and its properties. *)
Definition literalAttribute (item : string * list node) : node :=
  attribute (fst item) (snd item).

(** The result list [*schema.Resource] of a constructor. *)
Definition resourceResult (o : option object) : list field :=
  [Field [] (StarExpr (SelectorExpr (Ident "schema" o) "Resource"))].


(** The attributes name and zone, without properties. *)
Definition bareItems : list (string * list node) :=
  [("name", []); ("zone", [])].

(** Walk entries: a file that is no documentation, a fragment without
    marker line, a fragment that cannot be read. *)
Definition licenseFile : walked :=
  {| wpath := "website/LICENSE"; wcontent := Some "MIT" |}.

Definition plainFragment : walked :=
  {| wpath := "website/docs/index.md"; wcontent := Some "# acme provider" |}.

Definition unreadableFragment : walked :=
  {| wpath := "website/docs/r/gadget.md"; wcontent := None |}.

(** The slice expression [s[lo:hi]]; it panics unless
    [0 <= lo <= hi <= len(s)]. *)
Definition sliceRange (s : string) (lo hi : Z) : outcome string :=
  if ((0 <=? lo)%Z && (lo <=? hi)%Z
      && (hi <=? Z.of_nat (String.length s))%Z)%bool
  then Done (String.substring (Z.to_nat lo) (Z.to_nat (hi - lo)) s)
  else Panicked.


(** *** Conflict targets and the names they are looked up in *)

(** The text of a string literal between its quotes. *)
Definition unquoted (v : string) : string :=
  String.substring 1 (String.length v - 2) v.

(** A string literal as the parser yields it: at least its two quotes. *)
Definition isStringLit (n : node) : bool :=
  match n with
  | BasicLit v => Nat.leb 2 (String.length v)
  | _ => false
  end.

Definition literalText (n : node) : list string :=
  match n with
  | BasicLit v => [unquoted v]
  | _ => []
  end.

(** A property of an attribute record; the value of a ConflictsWith
    property is a list of string literals. *)
Definition isAttributeProperty (elt : node) : bool :=
  match elt with
  | KeyValueExpr (Ident k _) v =>
      if String.eqb k "ConflictsWith"
      then match v with
           | CompositeLit _ targets => forallb isStringLit targets
           | _ => false
           end
      else true
  | _ => false
  end.

(** The conflict targets that a property lists, in order. *)
Definition listedTargets (elt : node) : list string :=
  match elt with
  | KeyValueExpr (Ident k _) (CompositeLit _ targets) =>
      if String.eqb k "ConflictsWith" then flat_map literalText targets
      else []
  | _ => []
  end.

(** An entry of a schema literal: a key/value pair, keyed by a string
    literal or by anything else. *)
Definition isSchemaEntry (elt : node) : bool :=
  match elt with
  | KeyValueExpr (BasicLit v) _ => Nat.leb 2 (String.length v)
  | KeyValueExpr _ _ => true
  | _ => false
  end.

(** The name that an entry of a schema literal stands for when its key is
    a string literal; an entry with any other key gives none. *)
Definition entryNames (elt : node) : list string :=
  match elt with
  | KeyValueExpr (BasicLit v) _ => [unquoted v]
  | _ => []
  end.

(** The reading of "the attribute-name set collected by walking the
    entire enclosing schema (not just the attribute's siblings)": a walk
    that goes below every node of the schema and takes the literal key of
    every key/value pair, those of nested schemas included. *)
Definition entireCollector (_ : unit) (n : node) (res : list string)
  : outcome (option unit * list string) :=
  match n with
  | KeyValueExpr (BasicLit v) _ =>
      s ← sliceInner v; Done (Some tt, res ++ [s])
  | _ => Done (Some tt, res)
  end.

Definition namesOfEntireSchema (schema : node) : outcome (list string) :=
  Walk entireCollector tt schema [].

(** The reading of "each listed target name that is present anywhere in
    [that set] produces no violation": when every listed target is among
    the names of the entire schema, the check returns no error. *)
Definition resolved_in_entire_schema (quote : string -> string)
    (attributeName : string) (def : list node) (schema : node) : Prop :=
  forall conflicts names,
    forRange conflictTargets def [] = Done conflicts ->
    namesOfEntireSchema schema = Done names ->
    (forall c, In c conflicts -> In c names) ->
    checkConflictsWith quote attributeName def schema = Done None.

(** A schema with the attribute outer, which holds a nested schema with
    the attribute inner, and the attribute size, which lists inner as a
    conflict target. *)
Definition nestedConflictAttrs : list node :=
  [attribute "outer"
     [property "Type" (selector "schema" "TypeList");
      property "Elem"
        (UnaryExpr
           (CompositeLit (Some (selector "schema" "Resource"))
              [property "Schema" (schemaLiteral [attribute "inner" []])]))];
   attribute "size" (conflictsWith ["inner"])].

Definition nestedConflictSchema : node := schemaLiteral nestedConflictAttrs.

Definition nestedConflictFile : node :=
  File "acme" [constructorDecl "resourceDisk" nestedConflictAttrs].

(** *** src/cmd/doc-checker/main.go: the Classifier without path hints,
    and the lookup of a documentation file by extension *)

Module DocCheckerMain.

Definition classifyLine (line : string)
  : outcome (option (docType * string)) :=
  if negb (Contains line "sidebar_current") then Done None
  else if Contains line "datasource" then
    let i := LastIndex line "datasource-" in
    n ← sliceRange line (i + 11) (Z.of_nat (String.length line) - 1);
    Done (Some (docTypeDatasource, n))
  else if Contains line "resource" then
    let i := LastIndex line "resource-" in
    n ← sliceRange line (i + 9) (Z.of_nat (String.length line) - 1);
    Done (Some (docTypeResource, n))
  else Done None.

Fixpoint scanLoop (lines : list string) : outcome (docType * string) :=
  match lines with
  | [] => Done (docTypeDatasource, EmptyString)
  | line :: rest =>
      r ← classifyLine line;
      match r with
      | Some tn => Done tn
      | None => scanLoop rest
      end
  end.

Definition classifyDoc (providerName content : string)
  : outcome (string * docType * option string) :=
  '(t, n) ← scanLoop (scanLines content);
  if String.eqb n EmptyString
  then Done (n, t, Some "could not find sidebar_current")
  else Done (providerName +:+ "_" +:+ ReplaceByte n " " "_", t, None).

Section FileSystem.
(** [fileExists(path) == nil]: [os.Stat] finds the file. *)
Variable fileExists : string -> bool.
(** [path.Join] of a directory and a file name. *)
Variable Join : string -> string -> string.

Fixpoint checkFileExists (p name : string) (extensions : list string)
  : string * bool :=
  match extensions with
  | [] => (EmptyString, false)
  | ext :: rest =>
      let pa := Join p (name +:+ "." +:+ ext) in
      if fileExists pa then (pa, true) else checkFileExists p name rest
  end.

End FileSystem.

End DocCheckerMain.

(** ** Properties *)

Section Loops.
Context {A B : Type}.

Lemma forRange_app (body : B -> A -> outcome B) (l1 l2 : list A) (b : B) :
  forRange body (l1 ++ l2) b = forRange body l1 b ≫= forRange body l2.
Proof.
  revert b. induction l1 as [|x l1 IH]; intros b; simpl; [reflexivity|].
  destruct (body b x); simpl; auto.
Qed.

Lemma forRange_skip (body : B -> A -> outcome B) (l : list A) (b : B) :
  Forall (fun x => forall b, body b x = Done b) l ->
  forRange body l b = Done b.
Proof.
  induction 1 as [|x l Hx _ IH]; simpl; [reflexivity|].
  rewrite Hx. exact IH.
Qed.

End Loops.

Module CatalogFacts.

Lemma mapEntry_ok (n : node) (d : resourceDefinition) :
  EntryOf n d -> mapEntry n = Done d.
Proof. intros [v s f o args Hv]. simpl. rewrite Hv. reflexivity. Qed.

Lemma mapEntries_ok (ty : option node) (es : list node)
    (defs acc : list resourceDefinition) :
  Forall2 EntryOf es defs ->
  mapEntries (CompositeLit ty es) acc = Done (acc ++ defs).
Proof.
  intros H. revert acc. simpl.
  induction H as [|n d es defs Hn _ IH]; intros acc; simpl.
  - rewrite app_nil_r. reflexivity.
  - rewrite (mapEntry_ok _ _ Hn). simpl. rewrite IH, <- app_assoc. reflexivity.
Qed.

Lemma providerFields_ok (debug : bool) (fields rs ds : list node) :
  RegistrationFields fields rs ds ->
  forall rdefs ddefs p log,
    Forall2 EntryOf rs rdefs -> Forall2 EntryOf ds ddefs ->
    exists log',
      forRange (providerField debug) fields (p, log)
      = Done ({| datasources := datasources p ++ ddefs;
                 resources := resources p ++ rdefs |}, log').
Proof.
  induction 1 as [|o ty es fs rs ds _ IH|o ty es fs rs ds _ IH
                  |k o v fs rs ds Hr Hd _ IH];
    intros rdefs ddefs p log Hrs Hds.
  - inversion Hrs; inversion Hds; subst. exists log. simpl.
    rewrite !app_nil_r. destruct p; reflexivity.
  - apply Forall2_app_inv_l in Hrs as (k1 & k2 & H1 & H2 & ->).
    cbn [forRange providerField]. cbn [String.eqb Ascii.eqb Bool.eqb].
    rewrite (mapEntries_ok _ _ _ _ H1). cbn [mbind outcome_bind].
    destruct (IH k2 ddefs {| datasources := datasources p;
                             resources := resources p ++ k1 |} log H2 Hds)
      as [log' Hlog].
    exists log'. rewrite Hlog. cbn [datasources resources].
    rewrite <- app_assoc. reflexivity.
  - apply Forall2_app_inv_l in Hds as (k1 & k2 & H1 & H2 & ->).
    cbn [forRange providerField]. cbn [String.eqb Ascii.eqb Bool.eqb].
    rewrite (mapEntries_ok _ _ _ _ H1). cbn [mbind outcome_bind].
    destruct (IH rdefs k2 {| datasources := datasources p ++ k1;
                             resources := resources p |} log Hrs H2)
      as [log' Hlog].
    exists log'. rewrite Hlog. cbn [datasources resources].
    rewrite <- app_assoc. reflexivity.
  - cbn [forRange providerField].
    apply String.eqb_neq in Hr, Hd. rewrite Hr, Hd. cbn [mbind outcome_bind].
    apply IH; assumption.
Qed.

Lemma providerDecl_other (debug : bool) (decls : list node)
    (st : provider * list message) :
  Forall (fun d => isProviderDecl d = false) decls ->
  forRange (providerDecl debug) decls st = Done st.
Proof.
  intros H. apply forRange_skip.
  eapply Forall_impl; [exact H|]. intros d Hd b.
  destruct d; simpl in *; try reflexivity. rewrite Hd. reflexivity.
Qed.

Lemma providerStmt_other (debug : bool) (stmts : list node)
    (st : provider * list message) :
  Forall (fun s => isReturnStmt s = false) stmts ->
  forRange (providerStmt debug) stmts st = Done st.
Proof.
  intros H. apply forRange_skip.
  eapply Forall_impl; [exact H|]. intros s Hs b.
  destruct s; simpl in *; try reflexivity. discriminate.
Qed.

(** Everything the catalog extractor does with a registration of the
    expected shape. *)
Lemma parse_registration (debug : bool) (f : node)
    (fields rs ds : list node) (rdefs ddefs : list resourceDefinition) :
  Registration f fields ->
  RegistrationFields fields rs ds ->
  Forall2 EntryOf rs rdefs -> Forall2 EntryOf ds ddefs ->
  exists log,
    parseProviderDefinition debug (Parsed f)
    = Done ({| datasources := ddefs; resources := rdefs |}, None, log).
Proof.
  intros [pkg before after recv params results s1 s2 more ty -> Hb Ha H1 H2]
         Hf Hrs Hds.
  destruct (providerFields_ok debug _ _ _ Hf rdefs ddefs
              {| datasources := []; resources := [] |} [] Hrs Hds)
    as [log Hlog].
  exists log. unfold parseProviderDefinition. cbn [Decls].
  rewrite forRange_app, (providerDecl_other _ _ _ Hb).
  cbn [mbind outcome_bind forRange providerDecl].
  cbn [String.eqb Ascii.eqb Bool.eqb negb].
  rewrite forRange_app, (providerStmt_other _ _ _ H1).
  cbn [mbind outcome_bind forRange providerStmt].
  rewrite Hlog. cbn [mbind outcome_bind datasources resources app].
  rewrite (providerStmt_other _ _ _ H2). cbn [mbind outcome_bind].
  rewrite (providerDecl_other _ _ _ Ha). reflexivity.
Qed.

(** C1. For a registration declaration of the expected shape whose
    resource map has the entries [rs] and whose datasource map has the
    entries [ds], parseProviderDefinition returns, without error, a catalog
    with exactly [length rs] resource entries and [length ds] datasource
    entries; the i-th entry of each list is the (declaredName,
    constructorName) pair of the i-th entry of the literal of its kind. *)
Theorem parseProviderDefinition_catalog (debug : bool) (f : node)
    (fields rs ds : list node) (rdefs ddefs : list resourceDefinition) :
  Registration f fields ->
  RegistrationFields fields rs ds ->
  Forall2 EntryOf rs rdefs -> Forall2 EntryOf ds ddefs ->
  exists p log,
    parseProviderDefinition debug (Parsed f) = Done (p, None, log) /\
    resources p = rdefs /\ datasources p = ddefs /\
    length (resources p) = length rs /\
    length (datasources p) = length ds.
Proof.
  intros HR Hf Hrs Hds.
  destruct (parse_registration debug f fields rs ds rdefs ddefs HR Hf Hrs Hds)
    as [log Hlog].
  exists {| datasources := ddefs; resources := rdefs |}, log.
  cbn [resources datasources].
  repeat split; try assumption.
  - symmetry. eapply Forall2_length; eassumption.
  - symmetry. eapply Forall2_length; eassumption.
Qed.

Lemma registrationOf_shape (rs ds : list node) :
  exists fields,
    Registration (registrationOf rs ds) fields /\
    RegistrationFields fields rs ds.
Proof.
  eexists. split.
  - eapply (Registration_intro _ _ "acme" [] [] None [] _ [] [] []);
      [reflexivity | constructor ..].
  - apply RF_other; [discriminate | discriminate |].
    rewrite <- (app_nil_r rs) at 2. apply RF_resources.
    rewrite <- (app_nil_r ds) at 2. apply RF_datasources.
    apply RF_nil.
Defined.

Lemma entryNode_EntryOf (declared constructor : string) :
  EntryOf (entryNode declared constructor)
          {| name := String.substring 1 (String.length (quoted declared) - 2)
                                      (quoted declared);
             fnc := constructor |}.
Proof.
  apply EntryOf_intro. unfold decodeString, sliceInner.
  destruct declared; reflexivity.
Defined.

Lemma parseProviderDefinition_catalog_witness :
  exists p log,
    parseProviderDefinition false (Parsed acmeFile) = Done (p, None, log) /\
    resources p = [{| name := "acme_widget"; fnc := "resourceWidget" |}] /\
    datasources p = [{| name := "acme_region"; fnc := "dataSourceRegion" |}] /\
    length (resources p) = 1 /\ length (datasources p) = 1.
Proof.
  destruct (registrationOf_shape [entryNode "acme_widget" "resourceWidget"]
              [entryNode "acme_region" "dataSourceRegion"])
    as (fields & HR & HF).
  apply (parseProviderDefinition_catalog false acmeFile fields _ _ _ _ HR HF).
  - constructor; [apply (entryNode_EntryOf "acme_widget") | constructor].
  - constructor; [apply (entryNode_EntryOf "acme_region") | constructor].
Defined.

(** C2, as the claim states it, fails: the first of two resource entries
    of the same declared name is still in the catalog. *)
Lemma duplicate_names_counterexample :
  parseProviderDefinition false (Parsed dupFile)
  = Done ({| datasources := [{| name := "acme_region";
                                fnc := "dataSourceRegion" |}];
             resources := dupDeclared |}, None, []) /\
  ~ later_entry_shadows dupDeclared dupDeclared.
Proof.
  split; [reflexivity|].
  intros H.
  apply (H [] {| name := "acme_widget"; fnc := "resourceWidgetV1" |}
           [] {| name := "acme_widget"; fnc := "resourceWidgetV2" |} []).
  - reflexivity.
  - reflexivity.
  - discriminate.
  - left. reflexivity.
Qed.

(** C2, amended. For a registration of the expected shape, entries of
    the same declared name are all kept: the catalog lists are the
    declared pairs in source order, so whenever two entries [e1] and [e2]
    of the resource map (or of the datasource map) carry the same declared
    name, the list of their kind holds both, [e1] before [e2], each at the
    place it has in the source; nothing is shadowed. *)
Theorem duplicate_names_kept (debug : bool) (f : node)
    (fields rs ds : list node) (rdefs ddefs : list resourceDefinition) :
  Registration f fields ->
  RegistrationFields fields rs ds ->
  Forall2 EntryOf rs rdefs -> Forall2 EntryOf ds ddefs ->
  exists p log,
    parseProviderDefinition debug (Parsed f) = Done (p, None, log) /\
    resources p = rdefs /\ datasources p = ddefs /\
    (forall l1 e1 l2 e2 l3,
        rdefs = l1 ++ e1 :: l2 ++ e2 :: l3 -> name e1 = name e2 ->
        resources p = l1 ++ e1 :: l2 ++ e2 :: l3) /\
    (forall l1 e1 l2 e2 l3,
        ddefs = l1 ++ e1 :: l2 ++ e2 :: l3 -> name e1 = name e2 ->
        datasources p = l1 ++ e1 :: l2 ++ e2 :: l3).
Proof.
  intros HR Hf Hrs Hds.
  destruct (parse_registration debug f fields rs ds rdefs ddefs HR Hf Hrs Hds)
    as [log Hlog].
  exists {| datasources := ddefs; resources := rdefs |}, log.
  cbn [resources datasources].
  split; [exact Hlog|]. split; [reflexivity|]. split; [reflexivity|].
  split; intros l1 e1 l2 e2 l3 H _; exact H.
Qed.

Lemma duplicate_names_kept_witness :
  exists p log,
    parseProviderDefinition false (Parsed dupFile) = Done (p, None, log) /\
    resources p = dupDeclared /\
    datasources p = [{| name := "acme_region"; fnc := "dataSourceRegion" |}] /\
    (forall l1 e1 l2 e2 l3,
        dupDeclared = l1 ++ e1 :: l2 ++ e2 :: l3 -> name e1 = name e2 ->
        resources p = l1 ++ e1 :: l2 ++ e2 :: l3) /\
    (forall l1 e1 l2 e2 l3,
        [{| name := "acme_region"; fnc := "dataSourceRegion" |}]
        = l1 ++ e1 :: l2 ++ e2 :: l3 -> name e1 = name e2 ->
        datasources p = l1 ++ e1 :: l2 ++ e2 :: l3).
Proof.
  destruct (registrationOf_shape
              [entryNode "acme_widget" "resourceWidgetV1";
               entryNode "acme_widget" "resourceWidgetV2"]
              [entryNode "acme_region" "dataSourceRegion"])
    as (fields & HR & HF).
  apply (duplicate_names_kept false dupFile fields _ _ _ _ HR HF).
  - constructor; [apply (entryNode_EntryOf "acme_widget" "resourceWidgetV1")|].
    constructor; [apply (entryNode_EntryOf "acme_widget" "resourceWidgetV2")|].
    constructor.
  - constructor; [apply (entryNode_EntryOf "acme_region") | constructor].
Defined.

End CatalogFacts.

Module RuleFacts.

Lemma description_loop (def : list node) (has : bool) :
  Forall (fun e => isProperty e = true) def ->
  forRange (fun has elt =>
              n ← propertyName elt;
              Done (has || String.eqb n "Description"))
           def has
  = Done (has || existsb isDescription def).
Proof.
  intros H. revert has.
  induction H as [|e def He _ IH]; intros has; simpl.
  - rewrite orb_false_r. reflexivity.
  - destruct e as [| | [] ? | | | | | | | | |]; try discriminate He.
    simpl. rewrite IH, orb_assoc. reflexivity.
Qed.

Lemma existsb_isDescription (def : list node) :
  existsb isDescription def = true <-> HasDescription def.
Proof.
  rewrite existsb_exists. split.
  - intros (e & Hin & He).
    destruct e as [| | [] ? | | | | | | | | |]; try discriminate He.
    simpl in He. apply String.eqb_eq in He. subst. eexists _, _. exact Hin.
  - intros (o & v & Hin). eexists. split; [exact Hin|]. reflexivity.
Qed.

(** C4. For every attribute record (a property list of key/value pairs
    with identifier keys), checkDescription reports a violation exactly
    when the list holds no Description property; the value of the
    property plays no role. *)
Theorem checkDescription_iff (attributeName : string) (def : list node)
    (schema : node) :
  Forall (fun e => isProperty e = true) def ->
  (checkDescription attributeName def schema = Done None
   <-> HasDescription def) /\
  (checkDescription attributeName def schema
   = Done (Some (attributeName +:+ ": Missing Description attribute"))
   <-> ~ HasDescription def).
Proof.
  intros H. unfold checkDescription.
  rewrite (description_loop def false H). cbn [mbind outcome_bind orb].
  rewrite <- existsb_isDescription.
  destruct (existsb isDescription def); split; split; intros; 
    solve [reflexivity | discriminate | congruence].
Qed.

Lemma checkDescription_iff_witness :
  (checkDescription (quoted "name") emptyDescription (schemaLiteral [])
   = Done None <-> HasDescription emptyDescription) /\
  (checkDescription (quoted "name") emptyDescription (schemaLiteral [])
   = Done (Some (quoted "name" +:+ ": Missing Description attribute"))
   <-> ~ HasDescription emptyDescription).
Proof.
  apply (checkDescription_iff (quoted "name") emptyDescription
           (schemaLiteral [])).
  repeat constructor.
Defined.

Example empty_description_is_present :
  checkDescription (quoted "name") emptyDescription (schemaLiteral [])
  = Done None.
Proof. reflexivity. Qed.

Example no_description_is_reported :
  checkDescription (quoted "name")
    [property "Type" (selector "schema" "TypeString")] (schemaLiteral [])
  = Done (Some (quoted "name" +:+ ": Missing Description attribute")).
Proof. reflexivity. Qed.

(** The rule on its own argument: it fires exactly on the string id. *)
Lemma checkAttributeName_iff (attributeName : string) (def : list node)
    (schema : node) :
  (exists msg, checkAttributeName attributeName def schema = Done (Some msg))
  <-> attributeName = "id".
Proof.
  unfold checkAttributeName.
  destruct (String.eqb_spec attributeName "id") as [->|Hne]; split.
  - reflexivity.
  - intros _. eexists. reflexivity.
  - intros [msg Hmsg]. discriminate Hmsg.
  - intros Heq. contradiction.
Qed.

(** What attributeChecker hands to the rule is the text of the literal,
    quotes included: on that the rule never fires. *)
Lemma checkAttributeName_quoted (attr : string) (def : list node)
    (schema : node) :
  checkAttributeName (quoted attr) def schema = Done None.
Proof. reflexivity. Qed.

(** Walking a key/value pair: the collector takes the key when it is a
    literal and never looks below the pair. *)
Lemma collect_keyValue (k x : node) (res : list string) :
  Walk attributeCollector tt (KeyValueExpr k x) res
  = match k with
    | BasicLit v => s ← sliceInner v; Done (res ++ [s])
    | _ => Done res
    end.
Proof.
  destruct k; try reflexivity.
  cbn. destruct (sliceInner Value); reflexivity.
Qed.

(** The names collected from the entries of a schema literal: the
    literal keys, in order; nothing below an entry is looked at. *)
Lemma collect_entries (elts : list node) :
  Forall (fun e => isSchemaEntry e = true) elts ->
  forall res,
    walkList (Walk attributeCollector tt) elts res
    = Done (res ++ flat_map entryNames elts).
Proof.
  induction 1 as [|e elts He _ IH]; intros res.
  - cbn. rewrite app_nil_r. reflexivity.
  - destruct e as [| |k x| | | | | | | | |]; try discriminate He.
    cbn [walkList]. rewrite collect_keyValue.
    destruct k as [v| | | | | | | | | | |];
      try (cbn [mbind outcome_bind flat_map entryNames app]; apply IH).
    cbn [isSchemaEntry] in He. unfold sliceInner.
    destruct (Nat.ltb_spec (String.length v) 2) as [Hlt|_];
      [apply Nat.leb_le in He; lia|].
    cbn [mbind outcome_bind flat_map entryNames]. rewrite IH.
    unfold unquoted. rewrite <- app_assoc. reflexivity.
Qed.

Section WithQuote.
Variable quote : string -> string.

(** C3 fails on the code: the attribute id of [idFile] is walked by the
    checker and nothing is reported for it. *)
Theorem reserved_id_not_reported :
  checkSchema quote (Parsed idFile) = Done [].
Proof. reflexivity. Qed.

Lemma existsb_eqb_elem (names : list string) (c : string) :
  existsb (fun attribute => String.eqb attribute c) names = true
  <-> c ∈ names.
Proof.
  rewrite existsb_exists, list_elem_of_In. split.
  - intros (x & Hin & Hx). apply String.eqb_eq in Hx. subst. exact Hin.
  - intros Hin. exists c. split; [exact Hin | apply String.eqb_refl].
Qed.

Lemma dangling_fold (names conflicts errors : list string) :
  fold_left (fun errors conflict =>
               if existsb (fun attribute => String.eqb attribute conflict)
                          names
               then errors
               else errors ++ [danglingError quote conflict])
            conflicts errors
  = errors ++ map (danglingError quote)
                  (filter (fun c => c ∉ names) conflicts).
Proof.
  revert errors. induction conflicts as [|c conflicts IH]; intros errors.
  - simpl. rewrite app_nil_r. reflexivity.
  - cbn [fold_left]. rewrite IH, filter_cons.
    destruct (existsb _ names) eqn:He.
    + apply existsb_eqb_elem in He.
      destruct (decide (c ∉ names)); [contradiction | reflexivity].
    + assert (c ∉ names) as Hc
          by (intros Hin; apply existsb_eqb_elem in Hin; congruence).
      destruct (decide (c ∉ names)); [|contradiction].
      cbn [map]. rewrite <- app_assoc. reflexivity.
Qed.

Lemma checkConflictsWith_spec (attributeName : string) (def : list node)
    (schema : node) (conflicts names : list string) :
  forRange conflictTargets def [] = Done conflicts ->
  collectAttributeNames schema = Done names ->
  checkConflictsWith quote attributeName def schema
  = Done (match filter (fun c => c ∉ names) conflicts with
          | [] => None
          | dangling =>
              Some (attributeName +:+ ": "
                    +:+ Join (map (danglingError quote) dangling) ", ")
          end).
Proof.
  intros Hc Hn. unfold checkConflictsWith.
  rewrite Hc. cbn [mbind outcome_bind].
  destruct conflicts as [|c conflicts]; [reflexivity|].
  cbn [length Nat.eqb]. rewrite Hn. cbn [mbind outcome_bind].
  rewrite dangling_fold. cbn [app].
  destruct (filter _ (c :: conflicts)); reflexivity.
Qed.

Lemma conflictTarget_loop (targets : list node) :
  forallb isStringLit targets = true ->
  forall acc,
    forRange conflictTarget targets acc
    = Done (acc ++ flat_map literalText targets).
Proof.
  induction targets as [|x targets IH]; intros H acc.
  - cbn. rewrite app_nil_r. reflexivity.
  - cbn [forallb] in H. apply andb_true_iff in H as [Hx H].
    destruct x as [v| | | | | | | | | | |]; try discriminate Hx.
    cbn [forRange conflictTarget isStringLit] in *.
    unfold sliceInner.
    destruct (Nat.ltb_spec (String.length v) 2) as [Hlt|_];
      [apply Nat.leb_le in Hx; lia|].
    cbn [mbind outcome_bind]. rewrite (IH H).
    cbn [flat_map literalText app]. rewrite <- app_assoc. reflexivity.
Qed.

(** The targets that the check gathers from the properties of an
    attribute record. *)
Lemma conflictTargets_loop (def : list node) :
  Forall (fun e => isAttributeProperty e = true) def ->
  forall acc,
    forRange conflictTargets def acc
    = Done (acc ++ flat_map listedTargets def).
Proof.
  induction 1 as [|e def He _ IH]; intros acc.
  - cbn. rewrite app_nil_r. reflexivity.
  - destruct e as [| |k v| | | | | | | | |]; try discriminate He.
    destruct k as [|k o| | | | | | | | | |]; try discriminate He.
    cbn [forRange].
    assert (conflictTargets acc (KeyValueExpr (Ident k o) v)
            = Done (acc ++ listedTargets (KeyValueExpr (Ident k o) v))) as ->.
    { unfold conflictTargets.
      cbn [propertyName mbind outcome_bind isAttributeProperty
           listedTargets] in *.
      destruct (String.eqb k "ConflictsWith"); cbn [negb].
      - destruct v as [| | |ty targets| | | | | | | |]; try discriminate He.
        apply conflictTarget_loop, He.
      - destruct v; rewrite app_nil_r; reflexivity. }
    cbn [mbind outcome_bind flat_map]. rewrite IH, <- app_assoc.
    reflexivity.
Qed.

(** C5, amended. For an attribute record [def] inside the schema
    literal with the entries [elts]: the names that the check consults
    are the literal keys of these entries, in order, and nothing from
    below them.  When every listed target is among these names the check
    returns no error; as soon as one is absent it returns an error, and
    that is one single error: the attribute name, then, for every dangling
    target in the order listed, the text
    [conflict target NAME does not exist] with the quoted name, joined by
    commas. *)
Theorem checkConflictsWith_dangling (attributeName : string)
    (def : list node) (ty : node) (elts : list node) :
  Forall (fun e => isAttributeProperty e = true) def ->
  collectAttributeNames ty = Done [] ->
  Forall (fun e => isSchemaEntry e = true) elts ->
  let schema := CompositeLit (Some ty) elts in
  let conflicts := flat_map listedTargets def in
  let names := flat_map entryNames elts in
  let dangling := filter (fun c => c ∉ names) conflicts in
  collectAttributeNames schema = Done names /\
  ((forall c, In c conflicts -> In c names) ->
   checkConflictsWith quote attributeName def schema = Done None) /\
  ((exists c, In c conflicts /\ ~ In c names) ->
   dangling <> [] /\
   checkConflictsWith quote attributeName def schema
   = Done (Some (attributeName +:+ ": "
                 +:+ Join (map (fun c => "conflict target " +:+ quote c
                                         +:+ " does not exist") dangling)
                          ", "))) /\
  (forall c, In c dangling <-> In c conflicts /\ ~ In c names).
Proof.
  intros Hdef Hty Helts schema conflicts names dangling.
  pose proof (conflictTargets_loop def Hdef []) as Hc. cbn [app] in Hc.
  fold conflicts in Hc.
  assert (collectAttributeNames schema = Done names) as Hn.
  { unfold collectAttributeNames, schema. cbn.
    fold (Walk attributeCollector tt ty []).
    unfold collectAttributeNames in Hty. rewrite Hty.
    cbn [mbind outcome_bind].
    exact (collect_entries elts Helts []). }
  pose proof (checkConflictsWith_spec attributeName def schema conflicts
                names Hc Hn) as Hspec.
  fold dangling in Hspec.
  assert (forall c, In c dangling <-> In c conflicts /\ ~ In c names) as Hd.
  { intros c. unfold dangling.
    rewrite <- !list_elem_of_In, list_elem_of_filter. tauto. }
  split; [exact Hn|]. split; [|split].
  - intros Hall. rewrite Hspec.
    destruct dangling as [|d ds]; [reflexivity|].
    destruct (proj1 (Hd d) (or_introl eq_refl)) as [Hin Hnot].
    elim Hnot. apply Hall, Hin.
  - intros (c & Hin & Hnot).
    assert (In c dangling) as Hcd by (apply Hd; split; assumption).
    rewrite Hspec. destruct dangling as [|d ds]; [destruct Hcd|].
    split; [discriminate | reflexivity].
  - exact Hd.
Qed.

End WithQuote.

Lemma checkConflictsWith_dangling_witness :
  let schema := CompositeLit (Some schemaMapType) zoneSchemaAttrs in
  let def := conflictsWith ["name"; "zone"; "region"] in
  collectAttributeNames schema = Done ["name"] /\
  ((forall c, In c ["name"; "zone"; "region"] -> In c ["name"]) ->
   checkConflictsWith quoted (quoted "size") def schema = Done None) /\
  ((exists c, In c ["name"; "zone"; "region"] /\ ~ In c ["name"]) ->
   ["zone"; "region"] <> [] /\
   checkConflictsWith quoted (quoted "size") def schema
   = Done (Some (quoted "size" +:+ ": conflict target " +:+ quoted "zone"
                 +:+ " does not exist, conflict target " +:+ quoted "region"
                 +:+ " does not exist"))) /\
  (forall c, In c ["zone"; "region"]
             <-> In c ["name"; "zone"; "region"] /\ ~ In c ["name"]).
Proof.
  apply (checkConflictsWith_dangling quoted (quoted "size")
           (conflictsWith ["name"; "zone"; "region"])
           schemaMapType zoneSchemaAttrs).
  - repeat constructor.
  - reflexivity.
  - repeat constructor.
Defined.

(** C5, as the claim states it, fails: inner is the name of an attribute
    of the enclosing schema, in the nested schema of outer; the walk of
    the check stops at the entry outer, and the conflict target inner is
    reported as dangling. *)
Lemma nested_target_counterexample :
  namesOfEntireSchema nestedConflictSchema
  = Done ["outer"; "inner"; "size"] /\
  collectAttributeNames nestedConflictSchema = Done ["outer"; "size"] /\
  checkConflictsWith quoted (quoted "size") (conflictsWith ["inner"])
    nestedConflictSchema
  = Done (Some (quoted "size" +:+ ": conflict target " +:+ quoted "inner"
                +:+ " does not exist")) /\
  ~ resolved_in_entire_schema quoted (quoted "size") (conflictsWith ["inner"])
      nestedConflictSchema.
Proof.
  split; [reflexivity|]. split; [reflexivity|]. split; [reflexivity|].
  intros H.
  specialize (H ["inner"] ["outer"; "inner"; "size"] eq_refl eq_refl).
  discriminate H. intros c [<-|[]]. right. left. reflexivity.
Qed.

(** The run of the tool on the file that declares this schema: the line
    for the target inner is printed. *)
Example nested_target_is_printed :
  (l ← checkSchema quoted (Parsed nestedConflictFile); Done (map snd l))
  = Done [quoted "outer" +:+ ": Missing Description attribute";
          quoted "size" +:+ ": Missing Description attribute";
          quoted "size" +:+ ": conflict target " +:+ quoted "inner"
            +:+ " does not exist"].
Proof. reflexivity. Qed.

Example two_dangling_targets_one_error :
  checkConflictsWith quoted (quoted "size")
    (conflictsWith ["name"; "zone"; "region"]) (schemaLiteral zoneSchemaAttrs)
  = Done (Some (quoted "size" +:+ ": conflict target " +:+ quoted "zone"
                +:+ " does not exist, conflict target " +:+ quoted "region"
                +:+ " does not exist")).
Proof. reflexivity. Qed.

Lemma collect_elts (elts : list node) :
  Forall (fun n => isKeyValue n = true) elts ->
  forall res res',
    walkList (Walk attributeCollector tt) elts res
    = Done res' ->
    exists extra,
      res' = res ++ extra /\
      forall t, In t extra <->
                exists v x, In (KeyValueExpr (BasicLit v) x) elts /\
                            sliceInner v = Done t.
Proof.
  induction 1 as [|n elts Hn _ IH]; intros res res' Hw.
  - simpl in Hw. injection Hw as <-. exists []. rewrite app_nil_r.
    split; [reflexivity|]. intros t. split; [intros []|].
    intros (v & x & [] & _).
  - destruct n as [| |k x| | | | | | | | |]; try discriminate Hn.
    cbn [walkList] in Hw. rewrite collect_keyValue in Hw.
    destruct k as [v| | | | | | | | | | |];
      try (cbn [mbind outcome_bind] in Hw;
           destruct (IH _ _ Hw) as (extra & -> & Hextra);
           exists extra; split; [reflexivity|];
           intros t; rewrite Hextra; split;
           [ intros (v & y & Hin & Hv); exists v, y; split;
             [right; exact Hin | exact Hv]
           | intros (v & y & [Heq|Hin] & Hv);
             [discriminate Heq | exists v, y; split; assumption] ]).
    destruct (sliceInner v) as [s| |] eqn:Hs; try discriminate Hw.
    cbn [mbind outcome_bind] in Hw.
    destruct (IH _ _ Hw) as (extra & -> & Hextra).
    exists (s :: extra). split.
    { rewrite <- app_assoc. reflexivity. }
    intros t. cbn [In]. rewrite Hextra. split.
    + intros [<-|(v' & y & Hin & Hv)].
      * exists v, x. split; [left; reflexivity | exact Hs].
      * exists v', y. split; [right; exact Hin | exact Hv].
    + intros (v' & y & [Heq|Hin] & Hv).
      * injection Heq as <- <-. left. congruence.
      * right. exists v', y. split; assumption.
Qed.

(** The names collected from a schema literal whose elements are all
    key/value pairs and whose type expression holds none. *)
Lemma collect_schema (ty : node) (elts : list node) (names : list string) :
  collectAttributeNames ty = Done [] ->
  Forall (fun n => isKeyValue n = true) elts ->
  collectAttributeNames (CompositeLit (Some ty) elts) = Done names ->
  forall t, In t names <->
            exists v x, In (KeyValueExpr (BasicLit v) x) elts /\
                        sliceInner v = Done t.
Proof.
  unfold collectAttributeNames. intros Hty Helts Hn.
  cbn in Hn. fold (Walk attributeCollector tt ty []) in Hn.
  rewrite Hty in Hn. cbn [mbind outcome_bind] in Hn.
  destruct (collect_elts elts Helts _ _ Hn) as (extra & -> & Hextra).
  exact Hextra.
Qed.

(** The walk stops at every key/value pair it meets: of a schema with a
    nested schema only the outer keys are collected. *)
Example nested_names_not_collected :
  collectAttributeNames nestedSchema = Done ["outer"].
Proof. reflexivity. Qed.

Section IdentifierKeys.
Variable quote : string -> string.

(** C9. In a schema literal (all elements key/value pairs), the names
    consulted by the DanglingConflict check are exactly the keys written
    as literals.  An attribute keyed by an identifier, here the constant
    [c] with value [t], is not among them: unless some literal key spells
    [t] too, a conflict target [t] is reported as dangling although the
    attribute exists in the schema: the check returns the error that
    holds, after the attribute name, the text
    [conflict target NAME does not exist] for every listed target that is
    no literal key, [t] among them. *)
Theorem identifier_key_is_dangling (attributeName : string)
    (def : list node) (ty : node) (elts : list node)
    (conflicts names : list string) (c t : string) (x : node) :
  forRange conflictTargets def [] = Done conflicts ->
  In t conflicts ->
  collectAttributeNames ty = Done [] ->
  Forall (fun n => isKeyValue n = true) elts ->
  In (KeyValueExpr (constantKey c t) x) elts ->
  (forall v y, In (KeyValueExpr (BasicLit v) y) elts ->
               sliceInner v <> Done t) ->
  collectAttributeNames (CompositeLit (Some ty) elts) = Done names ->
  let dangling := filter (fun c => c ∉ names) conflicts in
  (forall n, In n names <->
             exists v y, In (KeyValueExpr (BasicLit v) y) elts /\
                         sliceInner v = Done n) /\
  ~ In t names /\
  In t dangling /\
  checkConflictsWith quote attributeName def (CompositeLit (Some ty) elts)
  = Done (Some (attributeName +:+ ": "
                +:+ Join (map (fun c => "conflict target " +:+ quote c
                                        +:+ " does not exist") dangling)
                         ", ")).
Proof.
  intros Hc Ht Hty Helts _ Hlit Hn dangling.
  pose proof (collect_schema ty elts names Hty Helts Hn) as Hnames.
  assert (~ In t names) as Hnot.
  { intros Hin. apply Hnames in Hin as (v & y & Hin & Hv).
    exact (Hlit v y Hin Hv). }
  assert (In t dangling) as Htd.
  { unfold dangling. rewrite <- list_elem_of_In, list_elem_of_filter.
    rewrite !list_elem_of_In. split; assumption. }
  split; [exact Hnames|]. split; [exact Hnot|]. split; [exact Htd|].
  rewrite (checkConflictsWith_spec quote attributeName def
             (CompositeLit (Some ty) elts) conflicts names Hc Hn).
  fold dangling. destruct dangling; [destruct Htd | reflexivity].
Qed.

End IdentifierKeys.

Lemma identifier_key_is_dangling_witness :
  let schema := CompositeLit (Some schemaMapType) zoneSchemaAttrs in
  (forall n, In n ["name"] <->
             exists v y, In (KeyValueExpr (BasicLit v) y) zoneSchemaAttrs /\
                         sliceInner v = Done n) /\
  ~ In "zone" ["name"] /\
  In "zone" ["zone"] /\
  checkConflictsWith quoted (quoted "size") (conflictsWith ["zone"]) schema
  = Done (Some (quoted "size" +:+ ": conflict target " +:+ quoted "zone"
                +:+ " does not exist")).
Proof.
  apply (identifier_key_is_dangling quoted (quoted "size")
           (conflictsWith ["zone"]) schemaMapType zoneSchemaAttrs
           ["zone"] ["name"] "attrZone" "zone" (CompositeLit None [])).
  - reflexivity.
  - left. reflexivity.
  - reflexivity.
  - repeat constructor.
  - right. left. reflexivity.
  - intros v y [H|[H|[]]]; [|discriminate H].
    injection H as <- _. discriminate.
  - reflexivity.
Defined.

End RuleFacts.

Module CrossReferenceFacts.

Section WithDebug.
Variable debug : bool.

(** Against an empty fragment every attribute is reported. *)
Lemma verifyAttribute_no_docs (schemaName lit n : string)
    (log : list message) (key x : node) :
  attributeLiteral key = Done lit ->
  decodeString lit = Done n ->
  verifyAttribute debug schemaName EmptyString log (KeyValueExpr key x)
  = Done (log ++ [MissingInDocs ("`" +:+ n +:+ "`") schemaName]).
Proof.
  intros Hk Hn. unfold verifyAttribute.
  rewrite Hk. cbn [mbind outcome_bind]. rewrite Hn. reflexivity.
Qed.

(** C6 fails on the code: acme_region has a constructor and no fragment
    in the index; the checker writes one attribute-level line for each of
    its attributes and no line about the missing fragment. *)
Theorem missing_fragment_reports_attributes :
  verifyAttributes debug "data_source_region.go" (Parsed regionFile)
    regionProvider emptyDocumentation
  = Done [MissingInDocs "`name`" "acme_region";
          MissingInDocs "`zone`" "acme_region"].
Proof. reflexivity. Qed.

(** C7 fails on the code: an identifier key that the parser could not
    resolve makes the run panic. *)
Theorem unresolved_key_panics :
  verifyAttributes debug "data_source_region.go" (Parsed foreignKeyFile)
    regionProvider regionDocs
  = Panicked.
Proof. reflexivity. Qed.

(** An identifier declared together with others resolves to the first
    value of the declaration: attrZone is looked up as name. *)
Example paired_key_takes_first_value :
  verifyAttributes debug "data_source_region.go" (Parsed pairedKeyFile)
    regionProvider emptyDocumentation
  = Done [MissingInDocs "`name`" "acme_region"].
Proof. reflexivity. Qed.

Example documented_attributes_pass :
  verifyAttributes debug "data_source_region.go" (Parsed regionFile)
    regionProvider regionDocs
  = Done [].
Proof. vm_compute. reflexivity. Qed.

End WithDebug.

End CrossReferenceFacts.

Module IndexFacts.

Section Index.
Variable debug : bool.
Variable providerName : string.
Variable extensions : list string.

Lemma loadOne_classified (w : walked) (c : string) (t : docType)
    (docName : string) (d : documentation) (log : list message) :
  ClassifiedAs providerName extensions w c t docName ->
  loadOne debug providerName extensions w (d, log)
  = Done (inr (overwrite t docName c d, log)).
Proof.
  intros (Hc & Hcand & Hcls). unfold loadOne.
  rewrite Hcand, Hc. cbn [negb]. rewrite Hcls. cbn [mbind outcome_bind].
  destruct t; reflexivity.
Qed.

(** What one call of the callback does to the index does not depend on
    the index: it leaves it alone or overwrites one key. *)
Lemma loadOne_cases (w : walked) (d : documentation) (log : list message)
    (d' : documentation) (log' : list message) :
  loadOne debug providerName extensions w (d, log) = Done (inr (d', log')) ->
  (d' = d /\
   (forall c t n, ~ ClassifiedAs providerName extensions w c t n) /\
   forall d2, loadOne debug providerName extensions w (d2, log)
              = Done (inr (d2, log'))) \/
  (exists c t n,
      ClassifiedAs providerName extensions w c t n /\
      d' = overwrite t n c d /\ log' = log).
Proof.
  unfold loadOne, ClassifiedAs.
  destruct (candidate extensions (wpath w)) eqn:Hcand; cbn [negb];
    cbn beta iota.
  2:{ intros H. simplify_eq. left. split; [reflexivity|]. split.
      - intros c t n (_ & Hf & _). discriminate Hf.
      - reflexivity. }
  destruct (wcontent w) as [c|] eqn:Hc; [|discriminate].
  destruct (classifyDoc providerName (wpath w) c)
    as [[[n t] [e|]]| |] eqn:Hcls; cbn [mbind outcome_bind]; try discriminate.
  - intros H. left.
    assert (d' = d /\ log' = Debugf debug (IgnoringDoc (wpath w)) log)
      as [-> ->] by (destruct t; simplify_eq; split; reflexivity).
    split; [reflexivity|]. split.
    + intros c' t' n' (Hc' & _ & Hcls'). congruence.
    + intros d2. destruct t; reflexivity.
  - intros H. right. exists c, t, n.
    split; [repeat split; first [reflexivity | assumption]|].
    destruct t; simplify_eq; split; reflexivity.
Qed.

Lemma overwrite_overwrite (t : docType) (n c c' : string)
    (d : documentation) :
  overwrite t n c (overwrite t n c' d) = overwrite t n c d.
Proof. destruct t; cbn; rewrite insert_insert_eq; reflexivity. Qed.

Lemma overwrite_comm (t t' : docType) (n n' c c' : string)
    (d : documentation) :
  (t, n) <> (t', n') ->
  overwrite t n c (overwrite t' n' c' d)
  = overwrite t' n' c' (overwrite t n c d).
Proof.
  intros Hne. destruct t, t'; cbn; try reflexivity;
    rewrite insert_insert_ne; [reflexivity| |reflexivity|]; congruence.
Qed.

Lemma indexOf_overwrite_eq (t : docType) (n c : string) (d : documentation) :
  indexOf t (overwrite t n c d) !! n = Some c.
Proof. destruct t; cbn; apply lookup_insert_eq. Qed.

Lemma indexOf_overwrite_ne (t t' : docType) (n n' c : string)
    (d : documentation) :
  (t, n) <> (t', n') ->
  indexOf t (overwrite t' n' c d) !! n = indexOf t d !! n.
Proof.
  intros Hne. destruct t, t'; cbn; try reflexivity;
    apply lookup_insert_ne; congruence.
Qed.

Section OneKey.
Variable t : docType.
Variable docName : string.

(** Two indexes that differ at most in what they hold for (t, docName). *)
Let agree (d1 d2 : documentation) : Prop :=
  forall c, overwrite t docName c d1 = overwrite t docName c d2.

Lemma loadOne_agree (w : walked) (d1 d2 d1' : documentation)
    (log log' : list message) :
  agree d1 d2 ->
  loadOne debug providerName extensions w (d1, log) = Done (inr (d1', log')) ->
  exists d2',
    loadOne debug providerName extensions w (d2, log) = Done (inr (d2', log'))
    /\ agree d1' d2'.
Proof.
  intros Hag H1.
  destruct (loadOne_cases _ _ _ _ _ H1)
    as [(-> & _ & H2)|(c & t' & n' & Hcls & -> & ->)].
  - exists d2. split; [apply H2 | exact Hag].
  - exists (overwrite t' n' c d2). split.
    + apply loadOne_classified, Hcls.
    + intros c0.
      destruct (decide ((t, docName) = (t', n'))) as [[= <- <-]|Hne].
      * rewrite !overwrite_overwrite. apply Hag.
      * rewrite !(overwrite_comm t t' docName n' c0 c _ Hne), Hag.
        reflexivity.
Qed.

Lemma loadWalk_agree (b : walked) (cb : string) (after : list walked)
    (d : documentation) (log' : list message) :
  ClassifiedAs providerName extensions b cb t docName ->
  forall (mid : list walked) (d1 d2 : documentation) (log : list message),
    agree d1 d2 ->
    loadWalk debug providerName extensions (mid ++ b :: after) (d1, log)
    = Done (d, None, log') ->
    loadWalk debug providerName extensions (mid ++ b :: after) (d2, log)
    = Done (d, None, log').
Proof.
  intros Hb. induction mid as [|w mid IH]; intros d1 d2 log Hag.
  - cbn [app loadWalk].
    rewrite !(loadOne_classified _ _ _ _ _ _ Hb). cbn [mbind outcome_bind].
    rewrite (Hag cb). auto.
  - cbn [app loadWalk].
    destruct (loadOne debug providerName extensions w (d1, log))
      as [[e|[d1' log1]]| |] eqn:H1; cbn [mbind outcome_bind];
      try discriminate.
    destruct (loadOne_agree _ _ _ _ _ _ Hag H1) as (d2' & -> & Hag').
    cbn [mbind outcome_bind]. apply IH, Hag'.
Qed.

Lemma loadWalk_drop (a b : walked) (ca cb : string)
    (mid after : list walked) (d : documentation) (log' : list message) :
  ClassifiedAs providerName extensions a ca t docName ->
  ClassifiedAs providerName extensions b cb t docName ->
  forall (before : list walked) (st : documentation * list message),
    loadWalk debug providerName extensions
             (before ++ a :: mid ++ b :: after) st = Done (d, None, log') ->
    loadWalk debug providerName extensions
             (before ++ mid ++ b :: after) st = Done (d, None, log').
Proof.
  intros Ha Hb. induction before as [|w before IH]; intros [d0 log0].
  - cbn [app loadWalk]. rewrite (loadOne_classified _ _ _ _ _ _ Ha).
    cbn [mbind outcome_bind].
    apply (loadWalk_agree b cb after d log' Hb).
    intros c. apply overwrite_overwrite.
  - cbn [app loadWalk].
    destruct (loadOne debug providerName extensions w (d0, log0))
      as [[e|st']| |]; cbn [mbind outcome_bind]; try discriminate.
    apply IH.
Qed.

Lemma loadWalk_suffix (l1 l2 : list walked) (d : documentation)
    (log' : list message) :
  forall st,
    loadWalk debug providerName extensions (l1 ++ l2) st
    = Done (d, None, log') ->
    exists st1,
      loadWalk debug providerName extensions l2 st1 = Done (d, None, log').
Proof.
  induction l1 as [|w l1 IH]; intros st H.
  - exists st. exact H.
  - cbn [app loadWalk] in H.
    destruct (loadOne debug providerName extensions w st)
      as [[e|st']| |]; cbn [mbind outcome_bind] in H; try discriminate.
    eapply IH, H.
Qed.

Lemma loadWalk_keeps (after : list walked) (d : documentation)
    (log' : list message) :
  Forall (fun w => forall c,
              ~ ClassifiedAs providerName extensions w c t docName) after ->
  forall d0 log0,
    loadWalk debug providerName extensions after (d0, log0)
    = Done (d, None, log') ->
    indexOf t d !! docName = indexOf t d0 !! docName.
Proof.
  induction 1 as [|w after Hw _ IH]; intros d0 log0 H.
  - cbn in H. injection H as <- <-. reflexivity.
  - cbn [loadWalk] in H.
    destruct (loadOne debug providerName extensions w (d0, log0))
      as [[e|[d1 log1]]| |] eqn:H1; cbn [mbind outcome_bind] in H;
      try discriminate.
    rewrite (IH _ _ H).
    destruct (loadOne_cases _ _ _ _ _ H1)
      as [(-> & _)|(c & t' & n' & Hcls & -> & ->)]; [reflexivity|].
    apply indexOf_overwrite_ne. intros [= <- <-]. exact (Hw c Hcls).
Qed.

(** C10. Two fragments [a] (visited first) and [b] (visited later) that
    the Classifier files under the same canonical name and kind: a walk
    that ends without error returns the index that the same walk without
    [a] returns, so the bytes of [a] are in no way consulted afterwards;
    and when no fragment after [b] is filed under that name and kind, the
    index holds the bytes of [b] for it.  Of the lines written on the way
    nothing is said under -debug, where the Classifier writes a line of
    its own for every fragment; without the flag the two walks write the
    same. *)
Theorem later_fragment_overwrites (before mid after : list walked)
    (a b : walked) (ca cb : string) (d : documentation)
    (log : list message) :
  ClassifiedAs providerName extensions a ca t docName ->
  ClassifiedAs providerName extensions b cb t docName ->
  loadDocumentation debug providerName (before ++ a :: mid ++ b :: after)
                    extensions = Done (d, None, log) ->
  (exists log',
      loadDocumentation debug providerName (before ++ mid ++ b :: after)
                        extensions = Done (d, None, log') /\
      (debug = false -> log' = log)) /\
  (Forall (fun w => forall c,
               ~ ClassifiedAs providerName extensions w c t docName) after ->
   indexOf t d !! docName = Some cb).
Proof.
  unfold loadDocumentation. intros Ha Hb H. split.
  - exists log. split; [|reflexivity].
    exact (loadWalk_drop a b ca cb mid after d log Ha Hb before _ H).
  - intros Hafter.
    replace (before ++ a :: mid ++ b :: after)
      with ((before ++ a :: mid) ++ b :: after) in H
      by (rewrite <- app_assoc; reflexivity).
    apply loadWalk_suffix in H as [[d0 log0] H].
    cbn [loadWalk] in H. rewrite (loadOne_classified _ _ _ _ _ _ Hb) in H.
    cbn [mbind outcome_bind] in H.
    rewrite (loadWalk_keeps _ _ _ Hafter _ _ H).
    apply indexOf_overwrite_eq.
Qed.

End OneKey.
End Index.

Lemma widgetV1_classified :
  ClassifiedAs "acme" docExtensions widgetV1
    (fragment "docs-acme-resource-widget" "first")
    docTypeResource "acme_widget".
Proof. repeat split; reflexivity. Defined.

Lemma widgetV2_classified :
  ClassifiedAs "acme" docExtensions widgetV2
    (fragment "docs-acme-resource-widget" "second")
    docTypeResource "acme_widget".
Proof. repeat split; reflexivity. Defined.

Lemma later_fragment_overwrites_witness :
  (exists log',
      loadDocumentation false "acme" ([] ++ [] ++ widgetV2 :: [])
                        docExtensions
      = Done ({| Datasources := ∅;
                 Resources := {[ "acme_widget" :=
                     fragment "docs-acme-resource-widget" "second" ]} |},
              None, log') /\
      (false = false -> log' = [])) /\
  (Forall (fun w => forall c,
               ~ ClassifiedAs "acme" docExtensions w c docTypeResource
                   "acme_widget") [] ->
   indexOf docTypeResource
     {| Datasources := ∅;
        Resources := {[ "acme_widget" :=
            fragment "docs-acme-resource-widget" "second" ]} |}
   !! "acme_widget"
   = Some (fragment "docs-acme-resource-widget" "second")).
Proof.
  apply (later_fragment_overwrites false "acme" docExtensions docTypeResource
           "acme_widget" [] [] [] widgetV1 widgetV2 _ _ _ []
           widgetV1_classified widgetV2_classified).
  vm_compute. reflexivity.
Defined.

End IndexFacts.

Module StringFacts.

Lemma HasPrefix_empty (s : string) : HasPrefix s EmptyString = true.
Proof. destruct s; reflexivity. Qed.

Lemma HasPrefix_cons (x h : ascii) (s p : string) :
  HasPrefix (String x s) (String h p)
  = if ascii_dec h x then HasPrefix s p else false.
Proof. reflexivity. Qed.

Lemma has_cons (x c : ascii) (s : string) :
  has c (String x s) = (if ascii_dec c x then true else false) || has c s.
Proof.
  unfold has. cbn [Contains]. rewrite HasPrefix_cons, HasPrefix_empty.
  reflexivity.
Qed.

Lemma has_app (c : ascii) (a b : string) :
  has c (a +:+ b) = has c a || has c b.
Proof.
  induction a as [|x a IH].
  - change (EmptyString +:+ b) with b. reflexivity.
  - change (String x a +:+ b) with (String x (a +:+ b)).
    rewrite !has_cons, IH, orb_assoc. reflexivity.
Qed.

(** A prefix of [s] has only bytes of [s]. *)
Lemma HasPrefix_has (c : ascii) (p : string) :
  has c p = true -> forall s, HasPrefix s p = true -> has c s = true.
Proof.
  induction p as [|h p IH]; intros Hc s Hp.
  - discriminate Hc.
  - destruct s as [|x s]; [discriminate Hp|].
    rewrite HasPrefix_cons in Hp. rewrite has_cons in Hc |- *.
    destruct (ascii_dec h x) as [->|]; [|discriminate Hp].
    destruct (ascii_dec c x); [reflexivity|]. cbn [orb] in *.
    apply IH; assumption.
Qed.

Lemma Contains_has (c : ascii) (sub : string) :
  has c sub = true -> forall s, Contains s sub = true -> has c s = true.
Proof.
  intros Hc. induction s as [|x s IH]; intros Hs.
  - cbn [Contains] in Hs. rewrite orb_false_r in Hs.
    exact (HasPrefix_has c sub Hc _ Hs).
  - cbn [Contains] in Hs. apply orb_true_iff in Hs as [Hs|Hs].
    + exact (HasPrefix_has c sub Hc _ Hs).
    + rewrite has_cons, (IH Hs). apply orb_true_r.
Qed.

Lemma lacks_Contains (c : ascii) (s sub : string) :
  has c s = false -> has c sub = true -> Contains s sub = false.
Proof.
  intros Hs Hsub. destruct (Contains s sub) eqn:H; [|reflexivity].
  rewrite (Contains_has c sub Hsub s H) in Hs. discriminate.
Qed.

Lemma lacks_HasPrefix (c : ascii) (s sub : string) :
  has c s = false -> has c sub = true -> HasPrefix s sub = false.
Proof.
  intros Hs Hsub. destruct (HasPrefix s sub) eqn:H; [|reflexivity].
  rewrite (HasPrefix_has c sub Hsub s H) in Hs. discriminate.
Qed.

(** A pattern without the byte [c] does not reach across a [c]. *)
Lemma HasPrefix_before (c : ascii) (sub : string) :
  has c sub = false ->
  forall a b, HasPrefix (a +:+ String c b) sub = true -> HasPrefix a sub = true.
Proof.
  induction sub as [|h sub IH]; intros Hc a b Hp.
  - apply HasPrefix_empty.
  - rewrite has_cons in Hc. apply orb_false_iff in Hc as [Hh Hc].
    destruct a as [|x a].
    + change (EmptyString +:+ String c b) with (String c b) in Hp.
      rewrite HasPrefix_cons in Hp.
      destruct (ascii_dec h c) as [->|]; [|discriminate Hp].
      destruct (ascii_dec c c); [discriminate Hh | contradiction].
    + change (String x a +:+ String c b) with (String x (a +:+ String c b)) in Hp.
      rewrite HasPrefix_cons in Hp |- *.
      destruct (ascii_dec h x); [|discriminate Hp].
      eapply IH; eassumption.
Qed.

Lemma Contains_across (c : ascii) (sub : string) :
  has c sub = false ->
  forall a b, Contains (a +:+ String c b) sub = true ->
              Contains a sub = true \/ Contains b sub = true.
Proof.
  intros Hc. induction a as [|x a IH]; intros b H.
  - change (EmptyString +:+ String c b) with (String c b) in H.
    cbn [Contains] in H. apply orb_true_iff in H as [H|H]; [|right; exact H].
    left. cbn [Contains]. rewrite orb_false_r.
    apply (HasPrefix_before c sub Hc EmptyString b). exact H.
  - change (String x a +:+ String c b) with (String x (a +:+ String c b)) in H.
    cbn [Contains] in H. apply orb_true_iff in H as [H|H].
    + left. cbn [Contains].
      rewrite (HasPrefix_before c sub Hc (String x a) b H). reflexivity.
    + destruct (IH b H) as [Ha|Hb]; [left | right; exact Hb].
      cbn [Contains]. rewrite Ha. apply orb_true_r.
Qed.

Lemma Contains_drop (sub : string) (k : nat) :
  forall s, Contains (drop k s) sub = true -> Contains s sub = true.
Proof.
  induction k as [|k IH]; intros s H; [exact H|].
  destruct s as [|x s]; [exact H|].
  cbn [drop] in H. cbn [Contains]. rewrite (IH s H). apply orb_true_r.
Qed.

(** Replacing a byte by an underscore. *)
Lemma ReplaceByte_cons (x old : ascii) (s : string) :
  ReplaceByte (String x s) old "_"
  = String (if Ascii.eqb x old then "_"%char else x) (ReplaceByte s old "_").
Proof. cbn [ReplaceByte]. destruct (Ascii.eqb x old); reflexivity. Qed.

Lemma ReplaceByte_lacks (old : ascii) (s : string) :
  old <> "_"%char -> has old (ReplaceByte s old "_") = false.
Proof.
  intros Hne. induction s as [|x s IH]; [reflexivity|].
  rewrite ReplaceByte_cons, has_cons, IH, orb_false_r.
  destruct (Ascii.eqb_spec x old) as [->|Hx].
  - destruct (ascii_dec old "_"); [contradiction | reflexivity].
  - destruct (ascii_dec old x); [congruence | reflexivity].
Qed.

Lemma HasPrefix_ReplaceByte (old : ascii) (sub : string) :
  has old sub = false -> has "_" sub = false ->
  forall s, HasPrefix (ReplaceByte s old "_") sub = HasPrefix s sub.
Proof.
  induction sub as [|h sub IH]; intros Ho Hu s.
  - rewrite !HasPrefix_empty. reflexivity.
  - rewrite has_cons in Ho, Hu.
    apply orb_false_iff in Ho as [Hho Ho], Hu as [Hhu Hu].
    destruct s as [|x s]; [reflexivity|].
    rewrite ReplaceByte_cons, !HasPrefix_cons, (IH Ho Hu).
    destruct (Ascii.eqb_spec x old) as [->|Hx]; [|reflexivity].
    destruct (ascii_dec h "_") as [->|].
    + destruct (ascii_dec "_" "_"); [discriminate Hhu | contradiction].
    + destruct (ascii_dec h old) as [->|]; [|reflexivity].
      destruct (ascii_dec old old); [discriminate Hho | contradiction].
Qed.

Lemma Contains_ReplaceByte (old : ascii) (sub : string) :
  has old sub = false -> has "_" sub = false ->
  forall s, Contains (ReplaceByte s old "_") sub = Contains s sub.
Proof.
  intros Ho Hu. induction s as [|x s IH].
  - reflexivity.
  - pose proof (HasPrefix_ReplaceByte old sub Ho Hu (String x s)) as Hp.
    rewrite ReplaceByte_cons in Hp |- *. cbn [Contains].
    rewrite Hp, IH. reflexivity.
Qed.

End StringFacts.
Import StringFacts.

Module ClassifierFacts.

Lemma scanLoop_inv (providerName path : string) (lines : list string)
    (t : docType) (n : string) :
  scanLoop providerName path lines = Done (t, n) ->
  n <> EmptyString ->
  exists line,
    In line lines /\ classifyLine providerName path line = Done (Some (t, n)).
Proof.
  induction lines as [|line lines IH]; intros H Hn.
  - cbn in H. injection H as _ <-. contradiction.
  - cbn [scanLoop] in H.
    destruct (classifyLine providerName path line) as [[tn|]| |] eqn:Hl;
      cbn [mbind outcome_bind] in H; try discriminate.
    + injection H as ->. exists line. split; [left; reflexivity | exact Hl].
    + destruct (IH H Hn) as (l & Hin & Hc). exists l.
      split; [right; exact Hin | exact Hc].
Qed.

Lemma classifyLine_inv (providerName path line : string) (t : docType)
    (n : string) :
  classifyLine providerName path line = Done (Some (t, n)) ->
  exists value, classifyValue providerName path value = Some (t, n).
Proof.
  unfold classifyLine.
  destruct (negb (Contains line "sidebar_current")); [discriminate|].
  destruct (Split line ": ") as [|? [|part1 ?]]; try discriminate.
  destruct (sliceInner part1) as [value| |]; cbn [mbind outcome_bind];
    try discriminate.
  intros [= H]. exists value. exact H.
Qed.

(** A classified fragment: its name is the canonical name of a suffix
    that the heuristics derived from some marker value. *)
Lemma classifyDoc_inv (providerName path content N : string) (t : docType) :
  classifyDoc providerName path content = Done (N, t, None) ->
  exists value n,
    classifyValue providerName path value = Some (t, n) /\
    n <> EmptyString /\
    N = canonicalName providerName n.
Proof.
  unfold classifyDoc.
  destruct (scanLoop providerName path (scanLines content))
    as [[t' n]| |] eqn:Hs; cbn [mbind outcome_bind]; try discriminate.
  destruct (String.eqb_spec n EmptyString) as [->|Hn]; [discriminate|].
  intros [= <- <-].
  destruct (scanLoop_inv _ _ _ _ _ Hs Hn) as (line & _ & Hl).
  destruct (classifyLine_inv _ _ _ _ _ Hl) as (value & Hv).
  exists value, n. auto.
Qed.

Lemma stripInfix_Contains (kw : string) (k : nat) (line sub : string) :
  Contains (stripInfix kw k line) sub = true -> Contains line sub = true.
Proof.
  unfold stripInfix. intros H.
  assert (Contains (if HasPrefix line kw then drop k line else line) sub
          = true) as H'.
  { destruct (Contains (if HasPrefix line kw then drop k line else line) kw);
      [eapply Contains_drop|]; exact H. }
  destruct (HasPrefix line kw); [eapply Contains_drop|]; exact H'.
Qed.

Lemma stripInfix_lacks (kw : string) (k : nat) (line : string) :
  has "-" line = false -> has "-" kw = true -> stripInfix kw k line = line.
Proof.
  intros Hl Hk. unfold stripInfix.
  rewrite (lacks_HasPrefix "-" line kw Hl Hk).
  rewrite (lacks_Contains "-" line kw Hl Hk). reflexivity.
Qed.

Lemma classifyValue_resource (providerName path value n : string) :
  classifyValue providerName path value = Some (docTypeResource, n) ->
  Contains path "/d/" = false /\ Contains path "data_source" = false /\
  exists line, Contains line "datasource" = false /\
               n = stripInfix "resource-" 9 line.
Proof.
  unfold classifyValue.
  set (line := if HasPrefix (if HasPrefix value "docs-" then _ else _) _
               then _ else _).
  destruct (Contains line "datasource" || Contains line "data-source"
            || Contains path "/d/" || Contains path "data_source") eqn:Hds;
    [discriminate|].
  apply orb_false_iff in Hds as [Hds H4].
  apply orb_false_iff in Hds as [Hds H3].
  apply orb_false_iff in Hds as [H1 H2].
  destruct (Contains line "resource" || Contains path "/r/"); [|discriminate].
  intros [= <-]. split; [exact H3|]. split; [exact H4|].
  exists line. split; [exact H1 | reflexivity].
Qed.

Lemma canonicalName_lacks_hyphen (providerName n : string) :
  has "-" providerName = false ->
  has "-" (canonicalName providerName n) = false.
Proof.
  intros Hp. unfold canonicalName.
  rewrite has_app, Hp.
  change ("_" +:+ ?s) with (String "_" s).
  rewrite has_cons, ReplaceByte_lacks by discriminate. reflexivity.
Qed.

Lemma canonicalName_lacks_datasource (providerName n : string) :
  Contains providerName "datasource" = false ->
  Contains n "datasource" = false ->
  Contains (canonicalName providerName n) "datasource" = false.
Proof.
  intros Hp Hn. unfold canonicalName.
  destruct (Contains (providerName +:+ _) "datasource") eqn:H; [|reflexivity].
  change ("_" +:+ ?s) with (String "_" s) in H.
  apply (Contains_across "_" "datasource" eq_refl) in H as [H|H].
  - congruence.
  - rewrite !Contains_ReplaceByte in H by reflexivity. congruence.
Qed.

Lemma length_append (a b : string) :
  String.length (a +:+ b) = String.length a + String.length b.
Proof.
  induction a as [|x a IH]; [reflexivity|].
  change (String x a +:+ b) with (String x (a +:+ b)).
  cbn [String.length]. rewrite IH. reflexivity.
Qed.

Lemma canonicalName_longer (providerName n : string) :
  canonicalName providerName n <> normalized n.
Proof.
  intros H. apply (f_equal String.length) in H.
  unfold canonicalName in H. fold (normalized n) in H.
  rewrite !length_append in H. cbn [String.length] in H. lia.
Qed.

(** C8 fails as stated: the fragment of acme_widget is classified as a
    resource through the keyword in its marker; its canonical name no
    longer holds the keyword, and the heuristics do not classify it. *)
Lemma convention_consistent_counterexample :
  classifyDoc "acme" "website/docs/widget.html.markdown" widgetFragment
  = Done ("acme_widget", docTypeResource, None) /\
  classifyValue "acme" "website/docs/widget.html.markdown" "acme_widget"
  = None /\
  ~ convention_consistent "acme" "website/docs/widget.html.markdown"
      widgetFragment.
Proof.
  split; [reflexivity|]. split; [reflexivity|].
  intros H.
  destruct (H "acme_widget" docTypeResource eq_refl) as (suffix & _ & Hs).
  discriminate Hs.
Qed.

(** C8, amended. For every fragment that the Classifier classifies, under
    a provider name without hyphen and without the word datasource:
    applying the heuristics again to the derived canonical name gives
    back the kind of the fragment whenever the source path carries the
    directory hint of that kind; nothing is stripped from the name, so
    the suffix found is the whole canonical name, never the suffix it was
    built from (the provider prefix is joined with an underscore and is
    stripped only before a hyphen). *)
Theorem reclassified_canonical_name (providerName path content N : string)
    (t : docType) :
  Contains providerName "-" = false ->
  Contains providerName "datasource" = false ->
  classifyDoc providerName path content = Done (N, t, None) ->
  pathHint t path = true ->
  classifyValue providerName path N = Some (t, N) /\
  exists n, N = providerName +:+ "_" +:+ normalized n /\ N <> normalized n.
Proof.
  intros Hhy Hds Hcls Hhint.
  destruct (classifyDoc_inv _ _ _ _ _ Hcls) as (value & n & Hv & Hn & ->).
  split; [|exists n; split; [reflexivity | apply canonicalName_longer]].
  pose proof (canonicalName_lacks_hyphen providerName n Hhy) as HN.
  set (N := canonicalName providerName n) in *.
  unfold classifyValue.
  rewrite (lacks_HasPrefix "-" N "docs-" HN eq_refl).
  rewrite (lacks_HasPrefix "-" N (providerName +:+ "-") HN)
    by (rewrite has_app; apply orb_true_r).
  rewrite (lacks_Contains "-" N "data-source" HN eq_refl).
  rewrite (stripInfix_lacks "datasource-" 11 N HN eq_refl).
  rewrite (stripInfix_lacks "resource-" 9 N HN eq_refl).
  destruct t; cbn [pathHint] in Hhint.
  - rewrite orb_false_r, <- orb_assoc, Hhint, orb_true_r. reflexivity.
  - destruct (classifyValue_resource _ _ _ _ Hv)
      as (Hd1 & Hd2 & line & Hline & Hstrip).
    assert (Contains n "datasource" = false) as Hnds.
    { destruct (Contains n "datasource") eqn:H; [|reflexivity].
      rewrite Hstrip in H. apply stripInfix_Contains in H. congruence. }
    pose proof (canonicalName_lacks_datasource providerName n Hds Hnds)
      as HNds.
    change (Contains N "datasource" = false) in HNds.
    rewrite HNds, Hd1, Hd2, Hhint, orb_true_r. reflexivity.
Qed.

Lemma reclassified_canonical_name_witness :
  classifyValue "acme" "website/docs/r/widget.html.markdown" "acme_widget"
  = Some (docTypeResource, "acme_widget") /\
  exists n, "acme_widget" = "acme" +:+ "_" +:+ normalized n /\
            "acme_widget" <> normalized n.
Proof.
  apply (reclassified_canonical_name "acme"
           "website/docs/r/widget.html.markdown" widgetFragment
           "acme_widget" docTypeResource); reflexivity.
Defined.

End ClassifierFacts.

(** ** Further properties of the code *)

Import ClassifierFacts.

Module LiteralFacts.

Lemma substring_all (r t : string) :
  String.substring 0 (String.length r) (r +:+ t) = r.
Proof.
  induction r as [|x r IH]; [destruct t; reflexivity|].
  change (String x r +:+ t) with (String x (r +:+ t)).
  cbn [String.length String.substring]. rewrite IH. reflexivity.
Qed.

Lemma length_snoc (r : string) (b : ascii) :
  String.length (r +:+ String b EmptyString) = S (String.length r).
Proof. rewrite length_append. cbn [String.length]. lia. Qed.

Lemma snoc_inv (s : string) :
  s <> EmptyString -> exists r b, s = r +:+ String b EmptyString.
Proof.
  induction s as [|x s IH]; [contradiction|]. intros _.
  destruct s as [|y s].
  - exists EmptyString, x. reflexivity.
  - destruct IH as (r & b & Hr); [discriminate|].
    exists (String x r), b. rewrite Hr. reflexivity.
Qed.

Lemma sliceInner_Done (s r : string) :
  sliceInner s = Done r <->
  exists a b, s = String a (r +:+ String b EmptyString).
Proof.
  unfold sliceInner. split.
  - destruct (Nat.ltb_spec (String.length s) 2) as [|Hlen]; [discriminate|].
    intros [= <-]. destruct s as [|a s]; [cbn in Hlen; lia|].
    destruct (snoc_inv s) as (r & b & ->).
    { intros ->. cbn in Hlen. lia. }
    exists a, b. f_equal. f_equal.
    cbn [String.length]. rewrite length_snoc.
    replace (S (S (String.length r)) - 2) with (String.length r) by lia.
    cbn [String.substring]. symmetry. apply substring_all.
  - intros (a & b & ->). cbn [String.length]. rewrite length_snoc.
    cbn [Nat.ltb Nat.leb].
    replace (S (S (String.length r)) - 2) with (String.length r) by lia.
    cbn [String.substring]. rewrite substring_all. reflexivity.
Qed.

(** X1. decodeString takes off the first and the last byte of its
    argument, whatever they are: it returns [r] exactly for the strings
    that are [r] between two bytes, and it panics exactly on the strings
    of fewer than two bytes. *)
Theorem decodeString_strips_ends (s : string) :
  (forall r, decodeString s = Done r <->
             exists a b, s = String a (r +:+ String b EmptyString)) /\
  (decodeString s = Panicked <-> String.length s < 2).
Proof.
  split; [intros r; apply sliceInner_Done|].
  unfold decodeString, sliceInner.
  destruct (Nat.ltb_spec (String.length s) 2); split; intros;
    solve [reflexivity | discriminate | lia | assumption].
Qed.

Lemma decodeString_quoted (s : string) : decodeString (quoted s) = Done s.
Proof. apply sliceInner_Done. exists dquote, dquote. reflexivity. Qed.

End LiteralFacts.
Import LiteralFacts.

Module ScannerFacts.

Lemma HasPrefix_app (sub : string) :
  forall a b, HasPrefix a sub = true -> HasPrefix (a +:+ b) sub = true.
Proof.
  induction sub as [|h sub IH]; intros a b H; [apply HasPrefix_empty|].
  destruct a as [|x a]; [discriminate H|].
  change (String x a +:+ b) with (String x (a +:+ b)).
  rewrite HasPrefix_cons in H |- *.
  destruct (ascii_dec h x); [|discriminate H]. apply IH, H.
Qed.

Lemma Contains_app_l (sub : string) (a b : string) :
  Contains a sub = true -> Contains (a +:+ b) sub = true.
Proof.
  induction a as [|x a IH]; intros H.
  - destruct sub; [|discriminate H].
    change (EmptyString +:+ b) with b.
    destruct b; cbn [Contains]; rewrite HasPrefix_empty; reflexivity.
  - change (String x a +:+ b) with (String x (a +:+ b)).
    cbn [Contains] in H |- *. apply orb_true_iff in H as [H|H].
    + pose proof (HasPrefix_app sub (String x a) b H) as Hp.
      change (String x a +:+ b) with (String x (a +:+ b)) in Hp.
      rewrite Hp. reflexivity.
    + rewrite (IH H). apply orb_true_r.
Qed.

Lemma Contains_cons (sub : string) (c : ascii) (s : string) :
  Contains s sub = true -> Contains (String c s) sub = true.
Proof. intros H. cbn [Contains]. rewrite H. apply orb_true_r. Qed.

Lemma pieces_head (s : string) :
  exists h t rest, pieces s = h :: t /\ s = h +:+ rest.
Proof.
  induction s as [|c s (h & t & rest & Hp & Hs)].
  - exists EmptyString, [], EmptyString. split; reflexivity.
  - cbn [pieces]. destruct (Ascii.eqb c "010").
    + exists EmptyString, (pieces s), (String c s). split; reflexivity.
    + rewrite Hp. exists (String c h), t, rest. split; [reflexivity|].
      rewrite Hs at 1. reflexivity.
Qed.

Lemma pieces_Contains (sub : string) :
  forall s l, In l (pieces s) -> Contains l sub = true ->
              Contains s sub = true.
Proof.
  induction s as [|c s IH]; intros l Hin Hl.
  - destruct Hin as [<-|[]]. exact Hl.
  - cbn [pieces] in Hin. destruct (Ascii.eqb c "010").
    + destruct Hin as [<-|Hin].
      * change (String c s) with (EmptyString +:+ String c s).
        apply Contains_app_l, Hl.
      * apply Contains_cons, (IH l Hin Hl).
    + destruct (pieces_head s) as (h & t & rest & Hp & Hs).
      rewrite Hp in Hin. destruct Hin as [<-|Hin].
      * rewrite Hs. change (String c (h +:+ rest)) with (String c h +:+ rest).
        apply Contains_app_l, Hl.
      * apply Contains_cons, (IH l); [rewrite Hp; right; exact Hin | exact Hl].
Qed.

Lemma dropCR_prefix (l : string) : exists rest, l = dropCR l +:+ rest.
Proof.
  induction l as [|c l (rest & IH)]; [exists EmptyString; reflexivity|].
  cbn [dropCR]. destruct l as [|d l].
  - destruct (Ascii.eqb c "013").
    + exists (String c EmptyString). reflexivity.
    + exists EmptyString. reflexivity.
  - exists rest. rewrite IH at 1. reflexivity.
Qed.

Lemma dropLastEmpty_In (x : string) (l : list string) :
  In x (dropLastEmpty l) -> In x l.
Proof.
  induction l as [|y l IH]; [intros []|].
  cbn [dropLastEmpty]. destruct l as [|z l].
  - destruct (String.eqb y EmptyString); [intros [] | exact id].
  - intros [<-|H]; [left; reflexivity | right; exact (IH H)].
Qed.

Lemma fitting_In (x : string) (l : list string) : In x (fitting l) -> In x l.
Proof.
  induction l as [|y l IH]; [intros []|].
  cbn [fitting]. destruct (N.ltb _ _); [|intros []].
  intros [<-|H]; [left; reflexivity | right; exact (IH H)].
Qed.

(** Every line that the scanner yields is a piece of the content. *)
Lemma scanLines_Contains (sub content l : string) :
  In l (scanLines content) -> Contains l sub = true ->
  Contains content sub = true.
Proof.
  unfold scanLines. intros Hin Hl.
  apply in_map_iff in Hin as (raw & <- & Hin).
  apply fitting_In, dropLastEmpty_In in Hin.
  apply (pieces_Contains sub content raw Hin).
  destruct (dropCR_prefix raw) as (rest & Hr). rewrite Hr.
  apply Contains_app_l, Hl.
Qed.

End ScannerFacts.
Import ScannerFacts.

Module ClassifierEdges.

Lemma scanLoop_no_marker (providerName path : string) (lines : list string) :
  Forall (fun l => Contains l "sidebar_current" = false) lines ->
  scanLoop providerName path lines = Done (docTypeDatasource, EmptyString).
Proof.
  induction 1 as [|l lines Hl _ IH]; [reflexivity|].
  cbn [scanLoop]. unfold classifyLine at 1. rewrite Hl.
  cbn [negb mbind outcome_bind]. exact IH.
Qed.

(** X2. A fragment in which the marker word does not occur is not
    classified: classifyDoc returns the error, with the empty name and the
    zero kind, and does not panic. *)
Theorem classifyDoc_without_marker (providerName path content : string) :
  Contains content "sidebar_current" = false ->
  classifyDoc providerName path content
  = Done (EmptyString, docTypeDatasource,
          Some "could not find sidebar_current").
Proof.
  intros H. unfold classifyDoc.
  rewrite scanLoop_no_marker; [reflexivity|].
  apply Forall_forall. intros l Hl. apply list_elem_of_In in Hl.
  destruct (Contains l "sidebar_current") eqn:Hc; [|reflexivity].
  rewrite (scanLines_Contains _ _ _ Hl Hc) in H. discriminate.
Qed.

Lemma classifyDoc_without_marker_witness :
  classifyDoc "acme" "website/docs/index.md" "# acme provider"
  = Done (EmptyString, docTypeDatasource,
          Some "could not find sidebar_current").
Proof.
  apply (classifyDoc_without_marker "acme" "website/docs/index.md"
           "# acme provider").
  reflexivity.
Defined.

Lemma Cut_None (sep : string) (s : string) :
  Contains s sep = false -> Cut s sep = None.
Proof.
  induction s as [|c s IH]; intros H; cbn [Contains] in H;
    apply orb_false_iff in H as [Hp H]; cbn [Cut]; rewrite Hp;
    [reflexivity|].
  rewrite (IH H). reflexivity.
Qed.

Lemma Split_no_separator (s sep : string) :
  Contains s sep = false -> Split s sep = [s].
Proof.
  intros H. unfold Split. destruct (String.length s); cbn [SplitN];
    [reflexivity|]. rewrite (Cut_None sep s H). reflexivity.
Qed.

Lemma scanLoop_app_no_marker (providerName path : string)
    (before rest : list string) :
  Forall (fun l => Contains l "sidebar_current" = false) before ->
  scanLoop providerName path (before ++ rest)
  = scanLoop providerName path rest.
Proof.
  induction 1 as [|l lines Hl _ IH]; [reflexivity|].
  cbn [app scanLoop]. unfold classifyLine at 1. rewrite Hl.
  cbn [negb mbind outcome_bind]. exact IH.
Qed.

(** X3. When the first line that holds the marker word has no colon
    followed by a space, classifyDoc indexes the second part of a split
    that has only one part: the run panics. *)
Theorem classifyDoc_marker_without_separator
    (providerName path content line : string) (before after : list string) :
  scanLines content = before ++ line :: after ->
  Forall (fun l => Contains l "sidebar_current" = false) before ->
  Contains line "sidebar_current" = true ->
  Contains line ": " = false ->
  classifyDoc providerName path content = Panicked.
Proof.
  intros Hs Hb Hm Hsep. unfold classifyDoc.
  rewrite Hs, (scanLoop_app_no_marker _ _ _ _ Hb).
  cbn [scanLoop]. unfold classifyLine at 1.
  rewrite Hm, (Split_no_separator line ": " Hsep). reflexivity.
Qed.

Lemma classifyDoc_marker_without_separator_witness :
  classifyDoc "acme" "website/docs/r/widget.md"
    ("# widget" +:+ String newline "sidebar_current:docs-acme-resource-widget")
  = Panicked.
Proof.
  apply (classifyDoc_marker_without_separator "acme"
           "website/docs/r/widget.md" _
           "sidebar_current:docs-acme-resource-widget" ["# widget"] []);
    [reflexivity | repeat constructor | reflexivity | reflexivity].
Defined.

Lemma ReplaceByte_keeps_lack (c old : ascii) (s : string) :
  c <> "_"%char -> has c s = false -> has c (ReplaceByte s old "_") = false.
Proof.
  intros Hne. induction s as [|x s IH]; intros H; [reflexivity|].
  rewrite has_cons in H. apply orb_false_iff in H as [Hx H].
  rewrite ReplaceByte_cons, has_cons, (IH H), orb_false_r.
  destruct (Ascii.eqb x old); [|exact Hx].
  destruct (ascii_dec c "_"); [contradiction | reflexivity].
Qed.

Lemma normalized_lacks (n : string) :
  has " " (normalized n) = false /\ has "-" (normalized n) = false.
Proof.
  unfold normalized. split.
  - apply ReplaceByte_keeps_lack; [discriminate|].
    apply ReplaceByte_lacks. discriminate.
  - apply ReplaceByte_lacks. discriminate.
Qed.

Lemma normalized_length (n : string) :
  String.length (normalized n) = String.length n.
Proof.
  unfold normalized.
  assert (forall old s, String.length (ReplaceByte s old "_")
                        = String.length s) as H.
  { intros old s. induction s as [|x s IH]; [reflexivity|].
    rewrite ReplaceByte_cons. cbn [String.length]. rewrite IH. reflexivity. }
  rewrite !H. reflexivity.
Qed.

(** X4. A canonical name is the provider name, an underscore and a
    suffix that is not empty and holds neither a space nor a hyphen. *)
Theorem classifyDoc_name_shape (providerName path content N : string)
    (t : docType) :
  classifyDoc providerName path content = Done (N, t, None) ->
  exists suffix,
    N = providerName +:+ "_" +:+ suffix /\
    suffix <> EmptyString /\
    has " " suffix = false /\ has "-" suffix = false.
Proof.
  intros H.
  destruct (classifyDoc_inv _ _ _ _ _ H) as (value & n & _ & Hn & ->).
  exists (normalized n). split; [reflexivity|]. split.
  - intros He. apply (f_equal String.length) in He.
    rewrite normalized_length in He. destruct n; [contradiction|].
    discriminate He.
  - apply normalized_lacks.
Qed.

Lemma classifyDoc_name_shape_witness :
  exists suffix,
    "acme_widget" = "acme" +:+ "_" +:+ suffix /\
    suffix <> EmptyString /\
    has " " suffix = false /\ has "-" suffix = false.
Proof.
  apply (classifyDoc_name_shape "acme" "website/docs/widget.html.markdown"
           widgetFragment "acme_widget" docTypeResource).
  reflexivity.
Defined.

Lemma scanLoop_cases (providerName path : string) (lines : list string)
    (t : docType) (n : string) :
  scanLoop providerName path lines = Done (t, n) ->
  (t = docTypeDatasource /\ n = EmptyString) \/
  exists value, classifyValue providerName path value = Some (t, n).
Proof.
  induction lines as [|line lines IH]; intros H.
  - cbn in H. injection H as <- <-. left. split; reflexivity.
  - cbn [scanLoop] in H.
    destruct (classifyLine providerName path line) as [[tn|]| |] eqn:Hl;
      cbn [mbind outcome_bind] in H; try discriminate.
    + injection H as ->. right. eapply classifyLine_inv, Hl.
    + exact (IH H).
Qed.

(** X5. Under a path with a datasource hint (/d/ or data_source) no
    fragment is classified as a resource, whatever its marker says: the
    datasource test comes first. *)
Theorem datasource_hint_wins (providerName path content : string) :
  pathHint docTypeDatasource path = true ->
  forall N err,
    classifyDoc providerName path content <> Done (N, docTypeResource, err).
Proof.
  intros Hhint N err. unfold classifyDoc.
  destruct (scanLoop providerName path (scanLines content))
    as [[t' n]| |] eqn:Hs; cbn [mbind outcome_bind]; try discriminate.
  intros H.
  assert (t' = docTypeResource) as ->
      by (destruct (String.eqb n EmptyString); congruence).
  destruct (scanLoop_cases _ _ _ _ _ Hs) as [[Ht _]|(value & Hv)];
    [discriminate Ht|].
  unfold classifyValue in Hv. cbn [pathHint] in Hhint.
  rewrite <- orb_assoc, Hhint, orb_true_r in Hv. discriminate Hv.
Qed.

Lemma datasource_hint_wins_witness :
  classifyDoc "acme" "website/docs/d/widget.md" widgetFragment
  <> Done ("acme_widget", docTypeResource, None).
Proof.
  apply (datasource_hint_wins "acme" "website/docs/d/widget.md"
           widgetFragment eq_refl "acme_widget" None).
Defined.



(** [LastIndex] finds an occurrence after which there is no other. *)
Lemma LastIndex_cases (kw : string) :
  forall s,
    (LastIndex s kw = (-1)%Z /\ Contains s kw = false) \/
    ((0 <= LastIndex s kw)%Z /\
     HasPrefix (drop (Z.to_nat (LastIndex s kw)) s) kw = true /\
     (kw <> EmptyString ->
      Contains (drop (S (Z.to_nat (LastIndex s kw))) s) kw = false)).
Proof.
  induction s as [|c s IH].
  - cbn [LastIndex Contains]. destruct (HasPrefix EmptyString kw) eqn:Hp.
    + right. split; [lia|]. split; [exact Hp|].
      intros Hkw. destruct kw; [contradiction | discriminate Hp].
    + left. split; reflexivity.
  - cbn [LastIndex].
    destruct IH as [[Hi Hc]|(Hi & Hp & Hc)].
    + rewrite Hi. cbn [Z.leb Z.compare].
      destruct (HasPrefix (String c s) kw) eqn:Hps.
      * right. split; [lia|]. split; [exact Hps|]. intros _. exact Hc.
      * left. split; [reflexivity|]. cbn [Contains]. rewrite Hps, Hc.
        reflexivity.
    + destruct (Z.leb_spec 0 (LastIndex s kw)); [|lia].
      right. split; [lia|].
      replace (Z.to_nat (LastIndex s kw + 1))
        with (S (Z.to_nat (LastIndex s kw))) by lia.
      split; [exact Hp | exact Hc].
Qed.


Lemma HasPrefix_Contains (s sub : string) :
  HasPrefix s sub = true -> Contains s sub = true.
Proof. intros H. destruct s; cbn [Contains]; rewrite H; reflexivity. Qed.




End ClassifierEdges.
Import ClassifierEdges.

Module ConventionFacts.

Lemma append_assoc (a b c : string) : (a +:+ b) +:+ c = a +:+ (b +:+ c).
Proof.
  induction a as [|x a IH]; [reflexivity|].
  change (String x a +:+ b) with (String x (a +:+ b)).
  change (String x (a +:+ b) +:+ c) with (String x ((a +:+ b) +:+ c)).
  rewrite IH. reflexivity.
Qed.

Lemma HasPrefix_refl (s : string) : HasPrefix s s = true.
Proof.
  induction s as [|x s IH]; [reflexivity|].
  rewrite HasPrefix_cons. destruct (ascii_dec x x); [exact IH | contradiction].
Qed.

Lemma HasPrefix_append (a b : string) : HasPrefix (a +:+ b) a = true.
Proof. apply HasPrefix_app, HasPrefix_refl. Qed.

Lemma drop_append (a b : string) : drop (String.length a) (a +:+ b) = b.
Proof. induction a as [|x a IH]; [reflexivity | exact IH]. Qed.

Lemma has_false_cons (c x : ascii) (s : string) :
  has c (String x s) = false -> c <> x /\ has c s = false.
Proof.
  rewrite has_cons. intros H. apply orb_false_iff in H as [Hx Hs].
  split; [|exact Hs]. intros ->.
  destruct (ascii_dec x x); [discriminate | contradiction].
Qed.

Lemma pieces_line (l body : string) :
  has newline l = false ->
  pieces (l +:+ String newline body) = l :: pieces body.
Proof.
  induction l as [|c l IH]; intros H; [reflexivity|].
  apply has_false_cons in H as [Hc H].
  change (String c l +:+ String newline body)
    with (String c (l +:+ String newline body)).
  cbn [pieces]. rewrite (IH H).
  destruct (Ascii.eqb_spec c "010") as [->|_]; [|reflexivity].
  elim Hc. reflexivity.
Qed.

Lemma dropCR_snoc (a : string) (c : ascii) :
  c <> "013"%char ->
  dropCR (a +:+ String c EmptyString) = a +:+ String c EmptyString.
Proof.
  intros Hc. induction a as [|x a IH].
  - change (EmptyString +:+ String c EmptyString) with (String c EmptyString).
    cbn [dropCR]. destruct (Ascii.eqb_spec c "013"); [contradiction|].
    reflexivity.
  - change (String x a +:+ String c EmptyString)
      with (String x (a +:+ String c EmptyString)).
    cbn [dropCR]. rewrite IH.
    destruct a; reflexivity.
Qed.

(** The first line of the content is the first token of the scanner. *)
Lemma scanLines_first_line (l body : string) :
  has newline l = false -> fits l = true ->
  scanLines (l +:+ String newline body) = dropCR l :: scanLines body.
Proof.
  intros Hl Hfit. unfold scanLines. rewrite (pieces_line l body Hl).
  destruct (pieces_head body) as (h & t & _ & Hp & _). rewrite Hp.
  cbn [dropLastEmpty]. cbn [fitting]. unfold fits in Hfit. rewrite Hfit.
  reflexivity.
Qed.

Lemma Cut_first (c : ascii) (sep' b : string) :
  forall a,
    has c a = false ->
    Cut (a +:+ String c sep' +:+ b) (String c sep') = Some (a, b).
Proof.
  induction a as [|x a IH]; intros H.
  - change (EmptyString +:+ ?s) with s. 
    destruct (String c sep' +:+ b) eqn:He; [discriminate He|].
    cbn [Cut]. rewrite <- He, HasPrefix_append, drop_append. reflexivity.
  - apply has_false_cons in H as [Hx H].
    change (String x a +:+ ?s) with (String x (a +:+ s)).
    cbn [Cut]. rewrite HasPrefix_cons.
    destruct (ascii_dec c x); [contradiction|].
    rewrite (IH H). reflexivity.
Qed.

Lemma SplitN_S (k : nat) (s sep : string) :
  SplitN (S k) s sep
  = match Cut s sep with
    | Some (a, b) => a :: SplitN k b sep
    | None => [s]
    end.
Proof. reflexivity. Qed.

Lemma SplitN_no_separator (k : nat) (s sep : string) :
  Contains s sep = false -> SplitN k s sep = [s].
Proof.
  intros H. destruct k; [reflexivity|].
  rewrite SplitN_S, (Cut_None sep s H). reflexivity.
Qed.

Lemma Split_marker (q : string) :
  has " " q = false ->
  Split ("sidebar_current: " +:+ q) ": " = ["sidebar_current"; q].
Proof.
  intros Hq. unfold Split.
  change ("sidebar_current: " +:+ q)
    with ("sidebar_current" +:+ ": " +:+ q).
  rewrite length_append. change (String.length "sidebar_current") with 15.
  change (15 + ?n) with (S (14 + n)).
  rewrite SplitN_S, (Cut_first ":" " " q "sidebar_current" eq_refl).
  rewrite SplitN_no_separator; [reflexivity|].
  apply (lacks_Contains " "); [exact Hq | reflexivity].
Qed.

Lemma has_quoted (c : ascii) (s : string) :
  c <> dquote -> has c (quoted s) = has c s.
Proof.
  intros Hc. unfold quoted. rewrite has_cons, has_app, has_cons.
  destruct (ascii_dec c dquote); [contradiction|].
  cbn [orb]. rewrite orb_false_r. reflexivity.
Qed.

Lemma classifyLine_marker (providerName path value : string) :
  has " " value = false ->
  classifyLine providerName path (markerLine value)
  = Done (classifyValue providerName path value).
Proof.
  intros Hv. unfold classifyLine, markerLine.
  assert (Contains ("sidebar_current: " +:+ quoted value) "sidebar_current"
          = true) as ->.
  { apply HasPrefix_Contains.
    change ("sidebar_current: " +:+ quoted value)
      with ("sidebar_current" +:+ ": " +:+ quoted value).
    apply HasPrefix_append. }
  cbn [negb]. rewrite Split_marker
    by (rewrite has_quoted; [exact Hv | discriminate]).
  fold (decodeString (quoted value)). rewrite decodeString_quoted.
  reflexivity.
Qed.

Lemma scanLines_fragment (value body : string) :
  has newline value = false -> fits (markerLine value) = true ->
  scanLines (fragment value body) = markerLine value :: scanLines body.
Proof.
  intros Hnl Hfit. unfold fragment.
  rewrite <- append_assoc. fold (markerLine value).
  rewrite scanLines_first_line; [|unfold markerLine|exact Hfit].
  2:{ rewrite has_app, has_quoted by discriminate. rewrite Hnl. reflexivity. }
  f_equal. unfold markerLine, quoted.
  change (String dquote (value +:+ String dquote ""))
    with (String dquote value +:+ String dquote "").
  rewrite <- append_assoc. apply dropCR_snoc. discriminate.
Qed.

(** A fragment that opens with the marker line: the marker value decides;
    when the heuristics do not classify it, the scan goes on below. *)
(** X7. A fragment that opens with the marker line: the marker value
    decides the classification; when the heuristics do not classify the
    value, the scan goes on with the lines below. *)
Theorem classifyDoc_front_matter (providerName path value body : string) :
  has newline value = false -> has " " value = false ->
  fits (markerLine value) = true ->
  classifyDoc providerName path (fragment value body)
  = match classifyValue providerName path value with
    | Some (t, n) =>
        if String.eqb n EmptyString
        then Done (n, t, Some "could not find sidebar_current")
        else Done (canonicalName providerName n, t, None)
    | None => classifyDoc providerName path body
    end.
Proof.
  intros Hnl Hsp Hfit. unfold classifyDoc.
  rewrite (scanLines_fragment value body Hnl Hfit).
  cbn [scanLoop]. rewrite (classifyLine_marker _ _ _ Hsp).
  cbn [mbind outcome_bind].
  destruct (classifyValue providerName path value) as [[t n]|]; reflexivity.
Qed.

Lemma classifyDoc_front_matter_witness :
  classifyDoc "acme" "website/docs/widget.html.markdown"
    (fragment "docs-acme-resource-widget" "# acme_widget")
  = match classifyValue "acme" "website/docs/widget.html.markdown"
            "docs-acme-resource-widget" with
    | Some (t, n) =>
        if String.eqb n EmptyString
        then Done (n, t, Some "could not find sidebar_current")
        else Done (canonicalName "acme" n, t, None)
    | None => classifyDoc "acme" "website/docs/widget.html.markdown"
                "# acme_widget"
    end.
Proof.
  apply (classifyDoc_front_matter "acme" "website/docs/widget.html.markdown"
           "docs-acme-resource-widget" "# acme_widget"); reflexivity.
Defined.

Lemma Contains_skip (x h : ascii) (r sub' : string) :
  h <> x -> Contains (String x r) (String h sub') = Contains r (String h sub').
Proof.
  intros Hne. cbn [Contains]. rewrite HasPrefix_cons.
  destruct (ascii_dec h x); [contradiction | reflexivity].
Qed.

Lemma ReplaceByte_id (old : ascii) (s : string) :
  has old s = false -> ReplaceByte s old "_" = s.
Proof.
  induction s as [|x s IH]; intros H; [reflexivity|].
  apply has_false_cons in H as [Hx H].
  rewrite ReplaceByte_cons, (IH H).
  destruct (Ascii.eqb_spec x old); [congruence | reflexivity].
Qed.

Lemma stripInfix_conventional (kw s : string) :
  has "-" s = false -> has "-" kw = true ->
  stripInfix kw (String.length kw) (kw +:+ s) = s.
Proof.
  intros Hs Hkw. unfold stripInfix.
  rewrite HasPrefix_append, drop_append.
  rewrite (lacks_Contains "-" s kw Hs Hkw). reflexivity.
Qed.

Lemma classifyValue_conventional (providerName path s : string)
    (t : docType) :
  has "-" s = false ->
  (t = docTypeResource ->
   Contains s "datasource" = false /\
   pathHint docTypeDatasource path = false) ->
  classifyValue providerName path
    ("docs-" +:+ providerName +:+ "-" +:+ kindInfix t +:+ s)
  = Some (t, s).
Proof.
  intros Hs Hres. unfold classifyValue.
  rewrite HasPrefix_append.
  pose proof (drop_append "docs-"
                (providerName +:+ "-" +:+ kindInfix t +:+ s)) as Hd5.
  cbn [String.length] in Hd5. rewrite Hd5. clear Hd5.
  rewrite <- (append_assoc providerName "-").
  rewrite HasPrefix_append.
  replace (String.length providerName + 1)
    with (String.length (providerName +:+ "-"))
    by (rewrite length_append; reflexivity).
  rewrite drop_append.
  destruct t; cbn [kindInfix].
  - assert (Contains ("datasource-" +:+ s) "datasource" = true) as ->.
    { apply HasPrefix_Contains.
      change ("datasource-" +:+ s) with ("datasource" +:+ "-" +:+ s).
      apply HasPrefix_append. }
    cbn [orb].
    pose proof (stripInfix_conventional "datasource-" s Hs eq_refl) as Hst.
    cbn [String.length] in Hst. rewrite Hst. reflexivity.
  - destruct (Hres eq_refl) as [Hds Hpath].
    cbn [pathHint] in Hpath. apply orb_false_iff in Hpath as [Hp1 Hp2].
    assert (forall sub', Contains ("resource-" +:+ s) (String "d" sub')
                         = Contains s (String "d" sub')) as Hskip.
    { intros sub'.
      change ("resource-" +:+ s)
        with (String "r" (String "e" (String "s" (String "o" (String "u"
               (String "r" (String "c" (String "e" (String "-" s))))))))).
      rewrite !Contains_skip by discriminate. reflexivity. }
    rewrite !Hskip, Hds, Hp1, Hp2.
    rewrite (lacks_Contains "-" s "data-source" Hs eq_refl). cbn [orb].
    assert (Contains ("resource-" +:+ s) "resource" = true) as ->.
    { apply HasPrefix_Contains.
      change ("resource-" +:+ s) with ("resource" +:+ "-" +:+ s).
      apply HasPrefix_append. }
    cbn [orb].
    pose proof (stripInfix_conventional "resource-" s Hs eq_refl) as Hst.
    cbn [String.length] in Hst. rewrite Hst. reflexivity.
Qed.

(** X8. The convention round trip: the marker docs-PROVIDER-KIND-SUFFIX,
    with a suffix free of spaces and hyphens, is classified as that kind
    under the name PROVIDER_SUFFIX (for a resource: when neither the
    suffix holds the word datasource nor the path a datasource hint). *)
Theorem conventional_marker (providerName path s body : string)
    (t : docType) :
  has newline providerName = false -> has " " providerName = false ->
  has newline s = false -> has " " s = false -> has "-" s = false ->
  s <> EmptyString ->
  (t = docTypeResource ->
   Contains s "datasource" = false /\
   pathHint docTypeDatasource path = false) ->
  fits (markerLine ("docs-" +:+ providerName +:+ "-" +:+ kindInfix t +:+ s))
  = true ->
  classifyDoc providerName path
    (fragment ("docs-" +:+ providerName +:+ "-" +:+ kindInfix t +:+ s) body)
  = Done (providerName +:+ "_" +:+ s, t, None).
Proof.
  intros Hpn Hps Hsn Hss Hsh Hne Hres Hfit.
  rewrite classifyDoc_front_matter; [| | |exact Hfit].
  - rewrite (classifyValue_conventional _ _ _ _ Hsh Hres).
    destruct (String.eqb_spec s EmptyString); [contradiction|].
    unfold canonicalName.
    rewrite (ReplaceByte_id " " s Hss), (ReplaceByte_id "-" s Hsh).
    reflexivity.
  - rewrite !has_app, Hpn, Hsn. destruct t; reflexivity.
  - rewrite !has_app, Hps, Hss. destruct t; reflexivity.
Qed.

Lemma conventional_marker_witness :
  classifyDoc "acme" "website/docs/r/widget.html.markdown"
    (fragment ("docs-" +:+ "acme" +:+ "-" +:+ kindInfix docTypeResource
               +:+ "widget") "# acme_widget")
  = Done ("acme" +:+ "_" +:+ "widget", docTypeResource, None).
Proof.
  apply (conventional_marker "acme" "website/docs/r/widget.html.markdown"
           "widget" "# acme_widget" docTypeResource);
    try reflexivity.
  - discriminate.
  - intros _. split; reflexivity.
Defined.

End ConventionFacts.
Import ConventionFacts.

Import IndexFacts.

Module WalkFacts.

Section Index.
Variable debug : bool.
Variable providerName : string.
Variable extensions : list string.

Lemma loadWalk_skip (w : walked) (after : list walked) :
  (forall st, loadOne debug providerName extensions w st = Done (inr st)) ->
  forall before st,
    loadWalk debug providerName extensions (before ++ w :: after) st
    = loadWalk debug providerName extensions (before ++ after) st.
Proof.
  intros Hw. induction before as [|x before IH]; intros st.
  - cbn [app loadWalk]. rewrite Hw. reflexivity.
  - cbn [app loadWalk].
    destruct (loadOne debug providerName extensions x st) as [[e|st']| |];
      cbn [mbind outcome_bind]; [reflexivity | apply IH | reflexivity..].
Qed.

(** X9. A file of the walk whose path has none of the extensions is not
    opened: the walk returns what it returns without that file. *)
Theorem loadDocumentation_skips_other_files (before after : list walked)
    (w : walked) :
  candidate extensions (wpath w) = false ->
  loadDocumentation debug providerName (before ++ w :: after) extensions
  = loadDocumentation debug providerName (before ++ after) extensions.
Proof.
  intros Hc. unfold loadDocumentation. apply loadWalk_skip.
  intros [d log]. unfold loadOne. rewrite Hc. reflexivity.
Qed.

(** X10. A fragment that cannot be read ends the walk: the files after
    it are not visited, and the index built from the files before it is
    returned together with the error. *)
Theorem loadDocumentation_stops_at_read_error (before after : list walked)
    (w : walked) :
  candidate extensions (wpath w) = true ->
  wcontent w = None ->
  loadDocumentation debug providerName (before ++ w :: after) extensions
  = match loadDocumentation debug providerName before extensions with
    | Done (d, None, log) => Done (d, Some "read error", log)
    | r => r
    end.
Proof.
  intros Hc Hr. unfold loadDocumentation.
  generalize (emptyDocumentation, @nil message).
  induction before as [|x before IH]; intros [d log].
  - cbn [app loadWalk]. unfold loadOne. rewrite Hc, Hr. reflexivity.
  - cbn [app loadWalk].
    destruct (loadOne debug providerName extensions x (d, log))
      as [[e|st']| |]; cbn [mbind outcome_bind];
      [reflexivity | apply IH | reflexivity..].
Qed.

Lemma loadWalk_sound (t : docType) (docName c : string) :
  forall entries st d e log,
    loadWalk debug providerName extensions entries st = Done (d, e, log) ->
    indexOf t d !! docName = Some c ->
    indexOf t (fst st) !! docName = Some c \/
    exists w, In w entries /\
              ClassifiedAs providerName extensions w c t docName.
Proof.
  induction entries as [|x entries IH]; intros [d0 log0] d e log H Hl.
  - cbn in H. injection H as <- _ _. left. exact Hl.
  - cbn [loadWalk] in H.
    destruct (loadOne debug providerName extensions x (d0, log0))
      as [[err|[d1 log1]]| |] eqn:H1; cbn [mbind outcome_bind] in H;
      try discriminate.
    + injection H as <- _ _. left. exact Hl.
    + destruct (IH _ _ _ _ H Hl) as [Hd1|(w & Hin & Hw)].
      * cbn [fst] in Hd1.
        destruct (loadOne_cases _ _ _ _ _ _ _ _ H1)
          as [(-> & _)|(c' & t' & n' & Hcls & -> & ->)].
        { left. exact Hd1. }
        destruct (decide ((t, docName) = (t', n'))) as [[= <- <-]|Hne].
        { rewrite indexOf_overwrite_eq in Hd1. injection Hd1 as ->.
          right. exists x. split; [left; reflexivity | exact Hcls]. }
        { rewrite indexOf_overwrite_ne in Hd1 by exact Hne.
          left. exact Hd1. }
      * right. exists w. split; [right; exact Hin | exact Hw].
Qed.

(** X11. Whatever the index holds under a name and a kind is the content
    of a fragment of the walk that the Classifier files under that name
    and kind. *)
Theorem index_holds_only_classified_fragments (entries : list walked)
    (d : documentation) (e : option string) (log : list message)
    (t : docType) (docName c : string) :
  loadDocumentation debug providerName entries extensions
  = Done (d, e, log) ->
  indexOf t d !! docName = Some c ->
  exists w, In w entries /\ ClassifiedAs providerName extensions w c t docName.
Proof.
  unfold loadDocumentation. intros H Hl.
  destruct (loadWalk_sound t docName c _ _ _ _ _ H Hl) as [Hempty|Hw];
    [|exact Hw].
  destruct t; cbn in Hempty; rewrite lookup_empty in Hempty; discriminate.
Qed.

Lemma loadWalk_keeps_key (t : docType) (docName : string) :
  forall entries st d e log,
    loadWalk debug providerName extensions entries st = Done (d, e, log) ->
    is_Some (indexOf t (fst st) !! docName) ->
    is_Some (indexOf t d !! docName).
Proof.
  induction entries as [|x entries IH]; intros [d0 log0] d e log H Hk.
  - cbn in H. injection H as <- _ _. exact Hk.
  - cbn [loadWalk] in H.
    destruct (loadOne debug providerName extensions x (d0, log0))
      as [[err|[d1 log1]]| |] eqn:H1; cbn [mbind outcome_bind] in H;
      try discriminate.
    + injection H as <- _ _. exact Hk.
    + apply (IH _ _ _ _ H). cbn [fst] in *.
      destruct (loadOne_cases _ _ _ _ _ _ _ _ H1)
        as [(-> & _)|(c' & t' & n' & Hcls & -> & ->)]; [exact Hk|].
      destruct (decide ((t, docName) = (t', n'))) as [[= <- <-]|Hne].
      * rewrite indexOf_overwrite_eq. eexists. reflexivity.
      * rewrite indexOf_overwrite_ne by exact Hne. exact Hk.
Qed.

(** X12. After a walk without error, the name of every classified
    fragment is a key of the index of its kind. *)
Theorem classified_fragments_are_indexed (entries : list walked)
    (d : documentation) (log : list message) (w : walked)
    (t : docType) (docName c : string) :
  loadDocumentation debug providerName entries extensions
  = Done (d, None, log) ->
  In w entries ->
  ClassifiedAs providerName extensions w c t docName ->
  is_Some (indexOf t d !! docName).
Proof.
  unfold loadDocumentation. generalize (emptyDocumentation, @nil message).
  induction entries as [|x entries IH]; intros [d0 log0] H Hin Hw;
    [destruct Hin|].
  cbn [loadWalk] in H.
  destruct (loadOne debug providerName extensions x (d0, log0))
    as [[err|[d1 log1]]| |] eqn:H1; cbn [mbind outcome_bind] in H;
    try discriminate.
  destruct Hin as [->|Hin]; [|exact (IH _ H Hin Hw)].
  rewrite (loadOne_classified _ _ _ _ _ _ _ _ _ Hw) in H1.
  injection H1 as <- <-.
  apply (loadWalk_keeps_key t docName _ _ _ _ _ H). cbn [fst].
  rewrite indexOf_overwrite_eq. eexists. reflexivity.
Qed.

End Index.

(** X13. A fragment that the Classifier does not classify is dropped
    without an error: with the debug flag off, the walk returns what it
    returns without that fragment. *)
Theorem loadDocumentation_drops_unclassified (providerName : string)
    (extensions : list string) (before after : list walked) (w : walked)
    (c n err : string) (t : docType) :
  candidate extensions (wpath w) = true ->
  wcontent w = Some c ->
  classifyDoc providerName (wpath w) c = Done (n, t, Some err) ->
  loadDocumentation false providerName (before ++ w :: after) extensions
  = loadDocumentation false providerName (before ++ after) extensions.
Proof.
  intros Hc Hr Hcls. unfold loadDocumentation. apply loadWalk_skip.
  intros [d log]. unfold loadOne. rewrite Hc, Hr. cbn [negb].
  rewrite Hcls. cbn [mbind outcome_bind]. destruct t; reflexivity.
Qed.

Lemma loadDocumentation_skips_other_files_witness :
  loadDocumentation false "acme" ([widgetV1] ++ licenseFile :: [widgetV2])
                    docExtensions
  = loadDocumentation false "acme" ([widgetV1] ++ [widgetV2]) docExtensions.
Proof.
  apply (loadDocumentation_skips_other_files false "acme" docExtensions
           [widgetV1] [widgetV2] licenseFile).
  reflexivity.
Defined.

Lemma loadDocumentation_stops_at_read_error_witness :
  loadDocumentation false "acme"
    ([widgetV1] ++ unreadableFragment :: [widgetV2]) docExtensions
  = match loadDocumentation false "acme" [widgetV1] docExtensions with
    | Done (d, None, log) => Done (d, Some "read error", log)
    | r => r
    end.
Proof.
  apply (loadDocumentation_stops_at_read_error false "acme" docExtensions
           [widgetV1] [widgetV2] unreadableFragment); reflexivity.
Defined.

Lemma index_holds_only_classified_fragments_witness :
  exists w, In w [widgetV1; widgetV2] /\
            ClassifiedAs "acme" docExtensions w
              (fragment "docs-acme-resource-widget" "second")
              docTypeResource "acme_widget".
Proof.
  apply (index_holds_only_classified_fragments false "acme" docExtensions
           [widgetV1; widgetV2]
           {| Datasources := ∅;
              Resources := {[ "acme_widget" :=
                  fragment "docs-acme-resource-widget" "second" ]} |}
           None []).
  - vm_compute. reflexivity.
  - vm_compute. reflexivity.
Defined.

Lemma classified_fragments_are_indexed_witness :
  is_Some (indexOf docTypeResource
             {| Datasources := ∅;
                Resources := {[ "acme_widget" :=
                    fragment "docs-acme-resource-widget" "second" ]} |}
           !! "acme_widget").
Proof.
  apply (classified_fragments_are_indexed false "acme" docExtensions
           [widgetV1; widgetV2] _ [] widgetV1 docTypeResource "acme_widget"
           (fragment "docs-acme-resource-widget" "first")).
  - vm_compute. reflexivity.
  - left. reflexivity.
  - exact widgetV1_classified.
Defined.

Lemma loadDocumentation_drops_unclassified_witness :
  loadDocumentation false "acme" ([widgetV1] ++ plainFragment :: [widgetV2])
                    docExtensions
  = loadDocumentation false "acme" ([widgetV1] ++ [widgetV2]) docExtensions.
Proof.
  apply (loadDocumentation_drops_unclassified "acme" docExtensions
           [widgetV1] [widgetV2] plainFragment "# acme provider"
           EmptyString "could not find sidebar_current" docTypeDatasource);
    reflexivity.
Defined.

End WalkFacts.

Module LookupFacts.

Section WithDebug.
Variable debug : bool.

Lemma findEntry_step_other (fname : string) (m : gmap string string)
    (l : list resourceDefinition) (st : bool * string * string) :
  Forall (fun u => fnc u <> fname) l ->
  fold_left (fun st v =>
               if String.eqb (fnc v) fname
               then (true, name v, docsOf m (name v)) else st) l st
  = st.
Proof.
  induction 1 as [|u l Hu _ IH]; [reflexivity|].
  cbn [fold_left]. apply String.eqb_neq in Hu. rewrite Hu. exact IH.
Qed.

(** X14. The catalog entry of a constructor is found by its function
    name: the last resource entry that names the function decides the
    schema name and the fragment, whatever the datasource list holds. *)
Theorem findEntry_last_resource (fname : string) (prov : provider)
    (docs : documentation) (l1 l2 : list resourceDefinition)
    (v : resourceDefinition) :
  resources prov = l1 ++ v :: l2 ->
  fnc v = fname ->
  Forall (fun u => fnc u <> fname) l2 ->
  findEntry fname prov docs
  = (true, name v, docsOf (Resources docs) (name v)).
Proof.
  intros Hr Hv Hl2. unfold findEntry. rewrite Hr, fold_left_app.
  cbn [fold_left]. apply String.eqb_eq in Hv. rewrite Hv.
  apply findEntry_step_other, Hl2.
Qed.

Lemma findEntry_none (fname : string) (prov : provider)
    (docs : documentation) :
  Forall (fun u => fnc u <> fname) (datasources prov) ->
  Forall (fun u => fnc u <> fname) (resources prov) ->
  findEntry fname prov docs = (false, EmptyString, EmptyString).
Proof.
  intros Hd Hr. unfold findEntry.
  rewrite (findEntry_step_other _ _ _ _ Hd).
  apply findEntry_step_other, Hr.
Qed.

(** X15. A function that returns *schema.Resource and is named by no
    catalog entry is skipped before its body is looked at; only a debug
    line is written. *)
Theorem unregistered_constructor_is_skipped (prov : provider)
    (docs : documentation) (log : list message)
    (recv : option (list field)) (fname : string) (params : list field)
    (o : option object) (body : option (list node)) :
  Forall (fun u => fnc u <> fname) (datasources prov) ->
  Forall (fun u => fnc u <> fname) (resources prov) ->
  verifyDecl debug prov docs log
    (FuncDecl recv fname params (Some (resourceResult o)) body)
  = Done (Debugf debug (NoMatchingEntry fname) log).
Proof.
  intros Hd Hr. cbn [verifyDecl resourceResult].
  cbn [String.eqb Ascii.eqb Bool.eqb negb mbind outcome_bind].
  rewrite (findEntry_none fname prov docs Hd Hr). reflexivity.
Qed.

Lemma verifyAttribute_literal (schemaName docset n : string)
    (props : list node) (log : list message) :
  verifyAttribute debug schemaName docset log (attribute n props)
  = Done (log ++ (if negb (Contains docset (markup n))
                  then [MissingInDocs (markup n) schemaName] else [])).
Proof.
  unfold verifyAttribute, attribute, strLit. cbn [attributeLiteral].
  cbn [mbind outcome_bind]. rewrite decodeString_quoted.
  cbn [mbind outcome_bind]. fold (markup n).
  destruct (negb (Contains docset (markup n)));
    [reflexivity | rewrite app_nil_r; reflexivity].
Qed.

Lemma verifyAttributes_literal (schemaName docset : string)
    (items : list (string * list node)) :
  forall log,
    forRange (verifyAttribute debug schemaName docset)
             (map literalAttribute items) log
    = Done (log ++ map (fun n => MissingInDocs (markup n) schemaName)
                       (undocumented docset (map fst items))).
Proof.
  induction items as [|[n props] items IH]; intros log.
  - cbn. rewrite app_nil_r. reflexivity.
  - cbn [map forRange].
    change (literalAttribute (n, props)) with (attribute n props).
    rewrite verifyAttribute_literal. cbn [mbind outcome_bind].
    rewrite IH. unfold undocumented. cbn [map List.filter fst].
    destruct (negb (Contains docset (markup n))); cbn [map].
    + rewrite <- app_assoc. reflexivity.
    + rewrite app_nil_r. reflexivity.
Qed.

(** X16. For a registered constructor that returns its schema literal
    with literal keys, the checker writes one line for each attribute
    whose markup (the name between backquotes) does not occur in the
    fragment, in the order of the schema, and nothing else. *)
Theorem registered_constructor_report (prov : provider)
    (docs : documentation) (log : list message)
    (fname schemaName docset : string) (items : list (string * list node)) :
  findEntry fname prov docs = (true, schemaName, docset) ->
  verifyDecl debug prov docs log
    (constructorDecl fname (map literalAttribute items))
  = Done (log ++ map (fun n => MissingInDocs (markup n) schemaName)
                     (undocumented docset (map fst items))).
Proof.
  intros Hf. unfold constructorDecl, selector.
  cbn [verifyDecl]. cbn [String.eqb Ascii.eqb Bool.eqb negb mbind outcome_bind].
  rewrite Hf. cbn [verifyBody forRange verifyField property].
  cbn [String.eqb Ascii.eqb Bool.eqb negb schemaLiteral].
  rewrite verifyAttributes_literal. reflexivity.
Qed.

End WithDebug.

Lemma findEntry_last_resource_witness :
  findEntry "resourceWidget"
    {| datasources := [{| name := "acme_widget"; fnc := "resourceWidget" |}];
       resources := [{| name := "acme_widget"; fnc := "resourceWidget" |};
                     {| name := "acme_gadget"; fnc := "resourceWidget" |}] |}
    regionDocs
  = (true, name {| name := "acme_gadget"; fnc := "resourceWidget" |},
     docsOf (Resources regionDocs)
            (name {| name := "acme_gadget"; fnc := "resourceWidget" |})).
Proof.
  apply (findEntry_last_resource "resourceWidget" _ regionDocs
           [{| name := "acme_widget"; fnc := "resourceWidget" |}] []
           {| name := "acme_gadget"; fnc := "resourceWidget" |});
    [reflexivity | reflexivity | constructor].
Defined.

Lemma unregistered_constructor_is_skipped_witness :
  verifyDecl false regionProvider regionDocs []
    (FuncDecl None "resourceOther" [] (Some (resourceResult None)) None)
  = Done (Debugf false (NoMatchingEntry "resourceOther") []).
Proof.
  apply (unregistered_constructor_is_skipped false regionProvider regionDocs
           [] None "resourceOther" [] None None).
  - repeat constructor. discriminate.
  - constructor.
Defined.

Lemma registered_constructor_report_witness :
  verifyDecl false regionProvider emptyDocumentation []
    (constructorDecl "dataSourceRegion" (map literalAttribute bareItems))
  = Done ([] ++ map (fun n => MissingInDocs (markup n) "acme_region")
                    (undocumented EmptyString (map fst bareItems))).
Proof.
  apply (registered_constructor_report false regionProvider
           emptyDocumentation [] "dataSourceRegion" "acme_region"
           EmptyString bareItems).
  reflexivity.
Defined.

End LookupFacts.

Import RuleFacts.

Module CheckerFacts.

Lemma description_loop_panics (def : list node) :
  Exists (fun e => isProperty e = false) def ->
  forall has,
    forRange (fun has elt =>
                n ← propertyName elt;
                Done (has || String.eqb n "Description"))
             def has
    = Panicked.
Proof.
  induction def as [|e def IH]; intros H has; [inversion H|].
  cbn [forRange].
  destruct (isProperty e) eqn:He.
  - destruct e as [| |[] ? | | | | | | | | |]; try discriminate He.
    cbn [propertyName mbind outcome_bind]. apply IH.
    inversion H as [? ? Hx|]; [congruence | assumption].
  - destruct e as [| |[] ? | | | | | | | | |]; try discriminate He;
      reflexivity.
Qed.

Lemma Forall_or_Exists_property (def : list node) :
  Forall (fun e => isProperty e = true) def \/
  Exists (fun e => isProperty e = false) def.
Proof.
  induction def as [|e def [IH|IH]].
  - left. constructor.
  - destruct (isProperty e) eqn:He.
    + left. constructor; assumption.
    + right. constructor. exact He.
  - right. apply Exists_cons_tl, IH.
Qed.

(** X17. checkDescription panics exactly when the property list holds an
    element that is not a key/value pair with an identifier key (as in a
    literal written without field names), wherever the element stands. *)
Theorem checkDescription_panics_iff (attributeName : string)
    (def : list node) (schema : node) :
  checkDescription attributeName def schema = Panicked
  <-> Exists (fun e => isProperty e = false) def.
Proof.
  split.
  - intros H. destruct (Forall_or_Exists_property def) as [Hall|Hex];
      [|exact Hex].
    unfold checkDescription in H. rewrite (description_loop def false Hall) in H.
    cbn [mbind outcome_bind] in H.
    destruct (false || existsb isDescription def); discriminate H.
  - intros H. unfold checkDescription.
    rewrite (description_loop_panics def H). reflexivity.
Qed.

Section WithQuote.
Variable quote : string -> string.

Lemma walk_properties (schema : node) (props : list node)
    (out : list diagnostic) :
  Forall (fun e => isProperty e = true) props ->
  walkList (Walk (Visit quote) (AttributeChecker schema)) props out = Done out.
Proof.
  induction 1 as [|e props He _ IH]; [reflexivity|].
  destruct e as [| |[] ? | | | | | | | | |]; try discriminate He.
  cbn. exact IH.
Qed.

(** X18. An attribute whose value is written as the address of a
    literal, as in &schema.Schema{...}, is walked without any check: no
    rule is applied to it. *)
Theorem pointer_attribute_is_not_checked (schema : node)
    (lit pkg sel : string) (props : list node) (out : list diagnostic) :
  Forall (fun e => isProperty e = true) props ->
  Walk (Visit quote) (AttributeChecker schema)
       (KeyValueExpr (BasicLit lit)
          (UnaryExpr (CompositeLit (Some (selector pkg sel)) props))) out
  = Done out.
Proof.
  intros H. cbn. apply walk_properties, H.
Qed.





Lemma conflictTargets_none (def : list node) :
  Forall (fun e => exists k o v, e = KeyValueExpr (Ident k o) v /\
                                 k <> "ConflictsWith") def ->
  forall acc, forRange conflictTargets def acc = Done acc.
Proof.
  induction 1 as [|e def (k & o & v & -> & Hk) _ IH]; intros acc;
    [reflexivity|].
  cbn [forRange].
  assert (conflictTargets acc (KeyValueExpr (Ident k o) v) = Done acc) as ->.
  { unfold conflictTargets. cbn [propertyName mbind outcome_bind].
    apply String.eqb_neq in Hk. rewrite Hk. reflexivity. }
  cbn [mbind outcome_bind]. apply IH.
Qed.

(** X21. An attribute without a ConflictsWith property passes the
    DanglingConflict rule, and the schema is not walked for it. *)
Theorem checkConflictsWith_without_property (attributeName : string)
    (def : list node) (schema : node) :
  Forall (fun e => exists k o v, e = KeyValueExpr (Ident k o) v /\
                                 k <> "ConflictsWith") def ->
  checkConflictsWith quote attributeName def schema = Done None.
Proof.
  intros H. unfold checkConflictsWith.
  rewrite (conflictTargets_none def H). reflexivity.
Qed.

End WithQuote.

Lemma pointer_attribute_is_not_checked_witness :
  Walk (Visit quoted) (AttributeChecker (schemaLiteral []))
       (KeyValueExpr (BasicLit (quoted "id"))
          (UnaryExpr (CompositeLit (Some (selector "schema" "Schema"))
                        [property "Type" (selector "schema" "TypeString")])))
       []
  = Done [].
Proof.
  apply (pointer_attribute_is_not_checked quoted (schemaLiteral [])
           (quoted "id") "schema" "Schema"
           [property "Type" (selector "schema" "TypeString")] []).
  repeat constructor.
Defined.


Lemma checkConflictsWith_without_property_witness :
  checkConflictsWith quoted (quoted "name") (described "the name")
    (schemaLiteral [])
  = Done None.
Proof.
  apply (checkConflictsWith_without_property quoted (quoted "name")
           (described "the name") (schemaLiteral [])).
  repeat constructor; eexists _, _, _; (split; [reflexivity | discriminate]).
Defined.

End CheckerFacts.

Module MainGoFacts.

Lemma LastIndex_app (kw r : string) (i : Z) :
  LastIndex r kw = i -> (0 <= i)%Z ->
  forall a, LastIndex (a +:+ r) kw = (Z.of_nat (String.length a) + i)%Z.
Proof.
  intros Hi Hpos. induction a as [|x a IH].
  - change (EmptyString +:+ r) with r. cbn [String.length]. lia.
  - change (String x a +:+ r) with (String x (a +:+ r)).
    cbn [LastIndex String.length]. rewrite IH.
    destruct (Z.leb_spec 0 (Z.of_nat (String.length a) + i)); lia.
Qed.

Lemma LastIndex_absent (kw s : string) :
  Contains s kw = false -> LastIndex s kw = (-1)%Z.
Proof.
  intros H. destruct (LastIndex_cases kw s) as [[Hi _]|(_ & Hp & _)];
    [exact Hi|].
  apply HasPrefix_Contains, Contains_drop in Hp. congruence.
Qed.

Lemma LastIndex_infix (t : docType) (a s : string) :
  has "-" s = false ->
  LastIndex (a +:+ kindInfix t +:+ s) (kindInfix t)
  = Z.of_nat (String.length a).
Proof.
  intros Hs.
  assert (LastIndex s (kindInfix t) = (-1)%Z) as Habs.
  { apply LastIndex_absent, (lacks_Contains "-"); [exact Hs|].
    destruct t; reflexivity. }
  rewrite (LastIndex_app (kindInfix t) (kindInfix t +:+ s) 0); [lia| |lia].
  destruct t; cbn [kindInfix] in *.
  - change ("datasource-" +:+ s)
      with (String "d" (String "a" (String "t" (String "a" (String "s"
             (String "o" (String "u" (String "r" (String "c" (String "e"
             (String "-" s))))))))))).
    cbn [LastIndex]. rewrite Habs. cbn. 
    destruct s; reflexivity.
  - change ("resource-" +:+ s)
      with (String "r" (String "e" (String "s" (String "o" (String "u"
             (String "r" (String "c" (String "e" (String "-" s))))))))).
    cbn [LastIndex]. rewrite Habs. cbn.
    destruct s; reflexivity.
Qed.

Lemma Contains_app_r (sub a b : string) :
  Contains b sub = true -> Contains (a +:+ b) sub = true.
Proof.
  intros H. induction a as [|x a IH]; [exact H|].
  change (String x a +:+ b) with (String x (a +:+ b)).
  apply Contains_cons, IH.
Qed.

Lemma substring_skip (a b : string) (m : nat) :
  String.substring (String.length a) m (a +:+ b) = String.substring 0 m b.
Proof. induction a as [|x a IH]; [reflexivity | exact IH]. Qed.

Lemma markerLine_infix (providerName s : string) (t : docType) :
  markerLine ("docs-" +:+ providerName +:+ "-" +:+ kindInfix t +:+ s)
  = beforeInfix providerName +:+ kindInfix t +:+ s +:+ String dquote "".
Proof.
  unfold markerLine, quoted, beforeInfix.
  rewrite !append_assoc.
  change (String dquote ?y +:+ ?x) with (String dquote (y +:+ x)).
  rewrite !append_assoc. reflexivity.
Qed.

Lemma slice_suffix (a kw s : string) (k : Z) :
  k = Z.of_nat (String.length kw) ->
  sliceRange (a +:+ kw +:+ s +:+ String dquote "")
    (Z.of_nat (String.length a) + k)
    (Z.of_nat (String.length (a +:+ kw +:+ s +:+ String dquote "")) - 1)
  = Done s.
Proof.
  intros ->. unfold sliceRange. rewrite !length_append. cbn [String.length].
  set (la := String.length a). set (lk := String.length kw).
  set (ls := String.length s).
  destruct (Z.leb_spec 0 (Z.of_nat la + Z.of_nat lk)); [|lia].
  destruct (Z.leb_spec (Z.of_nat la + Z.of_nat lk)
              (Z.of_nat (la + (lk + (ls + 1))) - 1)); [|lia].
  destruct (Z.leb_spec (Z.of_nat (la + (lk + (ls + 1))) - 1)
              (Z.of_nat (la + (lk + (ls + 1))))); [|lia].
  cbn [andb]. f_equal.
  replace (Z.to_nat (Z.of_nat la + Z.of_nat lk))
    with (String.length (a +:+ kw)) by (rewrite length_append; lia).
  replace (Z.to_nat (Z.of_nat (la + (lk + (ls + 1))) - 1
                     - (Z.of_nat la + Z.of_nat lk)))
    with (String.length s) by lia.
  rewrite <- (append_assoc a kw), substring_skip. apply substring_all.
Qed.

Lemma marker_has_no_datasource (providerName s : string) :
  Contains providerName "datasource" = false ->
  Contains s "datasource" = false ->
  Contains (beforeInfix providerName +:+ "resource-" +:+ s
            +:+ String dquote "") "datasource" = false.
Proof.
  intros Hp Hs.
  match goal with |- ?x = false => destruct x eqn:H end; [|reflexivity].
  unfold beforeInfix in H. rewrite !append_assoc in H.
  change (String dquote ?y +:+ ?x) with (String dquote (y +:+ x)) in H.
  rewrite !append_assoc in H.
  change ("sidebar_current: " +:+
          String dquote ("docs-" +:+ providerName +:+ "-" +:+ "resource-"
                         +:+ s +:+ String dquote ""))
    with (("sidebar_current: " +:+ String dquote "docs") +:+
          String "-" (providerName +:+
          String "-" ("resource" +:+
          String "-" (s +:+ String dquote "")))) in H.
  apply (Contains_across "-" "datasource" eq_refl) in H as [H|H];
    [discriminate H|].
  apply (Contains_across "-" "datasource" eq_refl) in H as [H|H];
    [congruence|].
  apply (Contains_across "-" "datasource" eq_refl) in H as [H|H];
    [discriminate H|].
  apply (Contains_across dquote "datasource" eq_refl) in H as [H|H];
    [congruence | discriminate H].
Qed.

Lemma classifyLine_conventional (providerName s : string) (t : docType) :
  has "-" s = false ->
  (t = docTypeResource ->
   Contains providerName "datasource" = false /\
   Contains s "datasource" = false) ->
  DocCheckerMain.classifyLine
    (markerLine ("docs-" +:+ providerName +:+ "-" +:+ kindInfix t +:+ s))
  = Done (Some (t, s)).
Proof.
  intros Hs Hres. rewrite markerLine_infix.
  unfold DocCheckerMain.classifyLine.
  assert (Contains (beforeInfix providerName +:+ kindInfix t +:+ s
                    +:+ String dquote "") "sidebar_current" = true) as ->.
  { apply Contains_app_l. reflexivity. }
  cbn [negb].
  assert (has "-" (s +:+ String dquote "") = false) as Hsq
      by (rewrite has_app, Hs; reflexivity).
  pose proof (LastIndex_infix t (beforeInfix providerName)
                (s +:+ String dquote "") Hsq) as Hidx.
  pose proof (slice_suffix (beforeInfix providerName) (kindInfix t) s) as Hsl.
  destruct t; cbn [kindInfix] in *.
  - assert (Contains (beforeInfix providerName +:+ "datasource-" +:+ s
                      +:+ String dquote "") "datasource" = true) as ->.
    { apply Contains_app_r, Contains_app_l. reflexivity. }
    rewrite Hidx, (Hsl 11%Z eq_refl). reflexivity.
  - destruct (Hres eq_refl) as [Hp Hds].
    rewrite (marker_has_no_datasource providerName s Hp Hds).
    assert (Contains (beforeInfix providerName +:+ "resource-" +:+ s
                      +:+ String dquote "") "resource" = true) as ->.
    { apply Contains_app_r, Contains_app_l. reflexivity. }
    rewrite Hidx, (Hsl 9%Z eq_refl). reflexivity.
Qed.

(** X22. The Classifier of main.go, which takes the text between the
    last infix and the closing quote, files the conventional marker
    docs-PROVIDER-KIND-SUFFIX under PROVIDER_SUFFIX and its kind (for a
    resource: when the word datasource is neither in the provider name
    nor in the suffix). *)
Theorem mainGo_conventional_marker (providerName s body : string)
    (t : docType) :
  has newline providerName = false ->
  has newline s = false -> has " " s = false -> has "-" s = false ->
  s <> EmptyString ->
  (t = docTypeResource ->
   Contains providerName "datasource" = false /\
   Contains s "datasource" = false) ->
  fits (markerLine ("docs-" +:+ providerName +:+ "-" +:+ kindInfix t +:+ s))
  = true ->
  DocCheckerMain.classifyDoc providerName
    (fragment ("docs-" +:+ providerName +:+ "-" +:+ kindInfix t +:+ s) body)
  = Done (providerName +:+ "_" +:+ s, t, None).
Proof.
  intros Hpn Hsn Hss Hsh Hne Hres Hfit.
  unfold DocCheckerMain.classifyDoc.
  rewrite scanLines_fragment; [| |exact Hfit].
  2:{ rewrite !has_app, Hpn, Hsn. destruct t; reflexivity. }
  cbn [DocCheckerMain.scanLoop].
  rewrite (classifyLine_conventional _ _ _ Hsh Hres).
  cbn [mbind outcome_bind].
  destruct (String.eqb_spec s EmptyString); [contradiction|].
  rewrite (ReplaceByte_id " " s Hss). reflexivity.
Qed.

(** X23. On a fragment that opens with a conventional marker
    docs-PROVIDER-KIND-SUFFIX the two Classifiers, the one with path hints
    and the one of main.go, return the same name and kind, provided that
    the suffix is not empty and holds no hyphen, space or newline, the
    provider name holds no space or newline, the marker line fits the
    buffer of the scanner and, for a resource, the word datasource is
    neither in the provider name nor in the suffix and the path carries no
    datasource hint.  (Under such a hint, or with a hyphen in the suffix,
    the two differ: see the examples below.) *)
Theorem classifiers_agree_on_convention (providerName path s body : string)
    (t : docType) :
  has newline providerName = false -> has " " providerName = false ->
  has newline s = false -> has " " s = false -> has "-" s = false ->
  s <> EmptyString ->
  (t = docTypeResource ->
   Contains providerName "datasource" = false /\
   Contains s "datasource" = false /\
   pathHint docTypeDatasource path = false) ->
  fits (markerLine ("docs-" +:+ providerName +:+ "-" +:+ kindInfix t +:+ s))
  = true ->
  DocCheckerMain.classifyDoc providerName
    (fragment ("docs-" +:+ providerName +:+ "-" +:+ kindInfix t +:+ s) body)
  = classifyDoc providerName path
      (fragment ("docs-" +:+ providerName +:+ "-" +:+ kindInfix t +:+ s) body).
Proof.
  intros Hpn Hps Hsn Hss Hsh Hne Hres Hfit.
  rewrite mainGo_conventional_marker; try assumption.
  - symmetry. apply conventional_marker; try assumption.
    intros Ht. destruct (Hres Ht) as (_ & H1 & H2). split; assumption.
  - intros Ht. destruct (Hres Ht) as (H0 & H1 & _). split; assumption.
Qed.

Lemma mainGo_conventional_marker_witness :
  DocCheckerMain.classifyDoc "acme"
    (fragment ("docs-" +:+ "acme" +:+ "-" +:+ kindInfix docTypeResource
               +:+ "widget") "# acme_widget")
  = Done ("acme" +:+ "_" +:+ "widget", docTypeResource, None).
Proof.
  apply (mainGo_conventional_marker "acme" "widget" "# acme_widget"
           docTypeResource); try reflexivity.
  - discriminate.
  - intros _. split; reflexivity.
Defined.

Lemma classifiers_agree_on_convention_witness :
  DocCheckerMain.classifyDoc "acme"
    (fragment ("docs-" +:+ "acme" +:+ "-" +:+ kindInfix docTypeDatasource
               +:+ "region") "# acme_region")
  = classifyDoc "acme" "website/docs/d/region.html.markdown"
      (fragment ("docs-" +:+ "acme" +:+ "-" +:+ kindInfix docTypeDatasource
                 +:+ "region") "# acme_region").
Proof.
  apply (classifiers_agree_on_convention "acme"
           "website/docs/d/region.html.markdown" "region" "# acme_region"
           docTypeDatasource); try reflexivity.
  - discriminate.
  - intros H. discriminate H.
Defined.

(** Where the two Classifiers part: a resource marker under a datasource
    directory, and a suffix with a hyphen. *)
Example classifiers_differ_under_path_hint :
  classifyDoc "acme" "website/docs/d/widget.md" widgetFragment
  = Done ("acme_resource_widget", docTypeDatasource, None) /\
  DocCheckerMain.classifyDoc "acme" widgetFragment
  = Done ("acme_widget", docTypeResource, None).
Proof. split; reflexivity. Qed.

Example classifiers_differ_on_hyphen :
  classifyDoc "acme" "website/docs/r/my-widget.md"
    (fragment "docs-acme-resource-my-widget" "# acme_my_widget")
  = Done ("acme_my_widget", docTypeResource, None) /\
  DocCheckerMain.classifyDoc "acme"
    (fragment "docs-acme-resource-my-widget" "# acme_my_widget")
  = Done ("acme_my-widget", docTypeResource, None).
Proof. split; reflexivity. Qed.

(** The lookup of a documentation file. *)
Section FileSystem.
Variable fileExists : string -> bool.
Variable Join : string -> string -> string.

(** X24. checkFileExists tries the extensions in the order given and
    returns the path of the first one whose file exists; it answers
    false, with the empty path, exactly when no extension has a file. *)
Theorem checkFileExists_first_match (p name : string)
    (extensions : list string) :
  (forall pa,
      DocCheckerMain.checkFileExists fileExists Join p name extensions
      = (pa, true) <->
      exists pre ext post,
        extensions = pre ++ ext :: post /\
        pa = Join p (name +:+ "." +:+ ext) /\
        fileExists pa = true /\
        Forall (fun e => fileExists (Join p (name +:+ "." +:+ e)) = false)
               pre) /\
  (snd (DocCheckerMain.checkFileExists fileExists Join p name extensions)
   = false <->
   DocCheckerMain.checkFileExists fileExists Join p name extensions
   = (EmptyString, false) /\
   Forall (fun e => fileExists (Join p (name +:+ "." +:+ e)) = false)
          extensions).
Proof.
  induction extensions as [|ext rest [IH1 IH2]].
  - split.
    + intros pa. split; [discriminate|].
      intros (pre & e & post & H & _). destruct pre; discriminate H.
    + split; [intros _; split; [reflexivity | constructor]|reflexivity].
  - cbn [DocCheckerMain.checkFileExists].
    destruct (fileExists (Join p (name +:+ "." +:+ ext))) eqn:He.
    + split.
      * intros pa. split.
        { intros [= <-]. exists [], ext, rest.
          repeat split; [exact He | constructor]. }
        { intros (pre & e & post & H & -> & Hpa & Hpre).
          destruct pre as [|x pre]; injection H as -> ->; [reflexivity|].
          inversion Hpre; congruence. }
      * cbn [snd]. split; [discriminate|]. intros [H _]. discriminate H.
    + split.
      * intros pa. rewrite IH1. split.
        { intros (pre & e & post & -> & Hpa & Hex & Hpre).
          exists (ext :: pre), e, post.
          repeat split; [exact Hpa | exact Hex | constructor; assumption]. }
        { intros (pre & e & post & H & -> & Hpa & Hpre).
          destruct pre as [|x pre]; injection H as -> ->; [congruence|].
          exists pre, e, post. inversion Hpre.
          repeat split; assumption. }
      * rewrite IH2. split.
        { intros [H Hall]. split; [exact H | constructor; assumption]. }
        { intros [H Hall]. split; [exact H | inversion Hall; assumption]. }
Qed.

End FileSystem.

End MainGoFacts.
